(** * image-grabber: the download routine of [main.go]

    A shallow embedding of [WriteCounter], [getFileName], [DownloadFile]
    and [main], with the operating system, the network and the
    libraries the program calls ([net/url], [colly], [go-humanize]) taken
    as an environment the definitions are parametric in.

    The text of [main.go] holds two revisions of the program.
    [WriteCounter], [DownloadFile] and [getFileName] are the same in both;
    [main] is the revision whose [img] callback calls [DownloadFile]. *)

From Stdlib Require Import ZArith Lia Ascii String List.
From Stdlib.Strings Require Import Byte.
From stdpp Require Import base option list strings gmap.

Open Scope string_scope.
Open Scope list_scope.

(** ** Errors and results *)

Inductive errno : Type :=
  | ENOENT | EACCES | ENOSPC | ENOTDIR | EISDIR | EIO.

(** The values of Go's [error] interface the program can meet. *)
Inductive error : Type :=
  | EOF                                              (* io.EOF *)
  | ErrShortWrite                                    (* io.ErrShortWrite *)
  | errInvalidWrite                                  (* io.errInvalidWrite *)
  | PathError (op path : string) (no : errno)        (* *os.PathError *)
  | LinkError (op old new : string) (no : errno)     (* *os.LinkError *)
  | UrlError (op url msg : string)                   (* *url.Error *)
  | NetError (msg : string)                          (* a failed read of a body *)
  | RuntimeError (msg : string).                     (* runtime.Error *)

(** How a Go call ends: it returns, it panics (the panic unwinds through
    the callers, running their deferred calls), or the process exits. *)
Inductive outcome (A : Type) : Type :=
  | Ret (a : A)
  | Panic (e : error)
  | Exit (code : Z).
Arguments Ret {A} a.
Arguments Panic {A} e.
Arguments Exit {A} code.

(** [os.IsNotExist] *)
Definition os_IsNotExist (err : option error) : bool :=
  match err with
  | Some (PathError _ _ ENOENT) => true
  | Some (LinkError _ _ _ ENOENT) => true
  | _ => false
  end.

(** ** Data *)

(** [type WriteCounter struct { Total uint64 }] *)
Record WriteCounter : Type := mkWriteCounter { Total : Z }.

Definition uint64_mod : Z := 2 ^ 64.

(** The fields of [url.URL] the parser fills in. *)
Record URL : Type := mkURL {
  Scheme : string;
  Opaque : string;
  Host : string;
  Path : string;
  RawQuery : string;
  Fragment : string
}.

(** A response body: what each successive [Read] returns, the bytes it
    delivered and its error.  A [Read] past the end of the list returns
    [0, io.EOF]. *)
Definition Body : Type := list (list byte * option error).

(** What the program does to the outside, in order. *)
Inductive Event : Type :=
  | EvStat (path : string) (res : option error)
  | EvMkdirAll (path : string) (perm : Z) (res : option error)
  | EvVisit (url : string)
  | EvCreate (path : string) (res : option error)
  | EvGet (url : string) (res : option error)
  | EvWrite (path : string) (data : list byte) (res : option error)
  | EvRename (old new : string) (res : option error)
  | EvClose (path : string)
  | EvBodyClose (url : string).

(** The state the program runs in: the regular files by path, the counter
    object [DownloadFile] allocates, standard output and the log of the
    calls made. *)
Record World : Type := mkWorld {
  files : gmap string (list byte);
  counter : WriteCounter;
  stdout : list string;
  trace : list Event
}.

(** The environment: the libraries and the system calls.  Every system
    call is given the files and the log of the calls made so far, so that
    it may fail at any time and for any reason; none of them sees the
    program's own counter or what it printed. *)
Record Env : Type := mkEnv {
  url_Parse : string -> error + URL;
  humanize_Bytes : Z -> string;
  env_Stat : gmap string (list byte) -> list Event -> string -> option error;
  env_MkdirAll : gmap string (list byte) -> list Event -> string -> Z -> option error;
  env_Visit : gmap string (list byte) -> list Event -> string -> list string;
  env_Create : gmap string (list byte) -> list Event -> string -> option error;
  env_Get : gmap string (list byte) -> list Event -> string -> error + Body;
  env_Write : gmap string (list byte) -> list Event -> string -> list byte
              -> nat * option error;
  env_Rename : gmap string (list byte) -> list Event -> string -> string
               -> option error
}.

(** ** The monad of the program: state passing with an outcome *)

Definition M (A : Type) : Type := World -> outcome A * World.

Definition ret {A} (a : A) : M A := fun w => (Ret a, w).

Definition bind {A B} (m : M A) (f : A -> M B) : M B :=
  fun w =>
    match m w with
    | (Ret a, w') => f a w'
    | (Panic e, w') => (Panic e, w')
    | (Exit c, w') => (Exit c, w')
    end.

Definition panic {A} (e : error) : M A := fun w => (Panic e, w).

(** [os.Exit] *)
Definition os_Exit {A} (code : Z) : M A := fun w => (Exit code, w).

(** [defer d] followed by [body]: [d] runs when [body] returns and when
    it panics, not when the process exits. *)
Definition defer {A} (d : M unit) (body : M A) : M A :=
  fun w =>
    match body w with
    | (Ret a, w') =>
        match d w' with
        | (Ret _, w'') => (Ret a, w'')
        | (Panic e, w'') => (Panic e, w'')
        | (Exit c, w'') => (Exit c, w'')
        end
    | (Panic e, w') =>
        match d w' with
        | (Exit c, w'') => (Exit c, w'')
        | (Panic e', w'') => (Panic e', w'')
        | (Ret _, w'') => (Panic e, w'')
        end
    | (Exit c, w') => (Exit c, w')
    end.

Declare Scope go_scope.
Delimit Scope go_scope with go.
Notation "x <- m ;; k" := (bind m (fun x => k))
  (at level 20, m at level 99, k at level 200, only parsing) : go_scope.
Notation "' pat <- m ;; k" := (bind m (fun x => match x with pat => k end))
  (at level 20, pat pattern, m at level 99, k at level 200, only parsing) : go_scope.
Notation "m ;;; k" := (bind m (fun _ => k))
  (at level 100, k at level 200, only parsing, right associativity) : go_scope.
Open Scope go_scope.

Definition log (e : Event) : M unit :=
  fun w => (Ret tt, mkWorld (files w) (counter w) (stdout w) (trace w ++ [e])).

Definition print (s : string) : M unit :=
  fun w => (Ret tt, mkWorld (files w) (counter w) (stdout w ++ [s]) (trace w)).

Definition set_files (f : gmap string (list byte)) : M unit :=
  fun w => (Ret tt, mkWorld f (counter w) (stdout w) (trace w)).

Definition set_counter (c : WriteCounter) : M unit :=
  fun w => (Ret tt, mkWorld (files w) c (stdout w) (trace w)).

Definition get_world : M World := fun w => (Ret w, w).

(** ** Strings *)

Definition LF : string := String (ascii_of_nat 10) "".
Definition CR : string := String (ascii_of_nat 13) "".

(** [strings.Repeat] *)
Fixpoint strings_Repeat (s : string) (count : nat) : string :=
  match count with
  | O => ""
  | S n => s +:+ strings_Repeat s n
  end.

(** [fmt.Println]: the operands separated by spaces, then a newline. *)
Definition fmt_Println (operands : list string) : M unit :=
  print (String.concat " " operands +:+ LF).

(** [strings.Split(s, sep)] for a separator of one byte: the substrings
    between the separators; never the empty list. *)
Fixpoint split_from (sep : ascii) (cur : string) (s : string) : list string :=
  match s with
  | EmptyString => [cur]
  | String c s' =>
      if Ascii.eqb c sep then cur :: split_from sep "" s'
      else split_from sep (cur +:+ String c "") s'
  end.

Definition strings_Split (s : string) (sep : ascii) : list string :=
  split_from sep "" s.

Definition slash : ascii := "/"%char.

Definition len {A} (l : list A) : Z := Z.of_nat (length l).

(** ** The program *)

Section Program.

Variable env : Env.

(** *** The system calls, as the program sees them *)

Definition files_of_Create (f : gmap string (list byte)) (path : string)
  : gmap string (list byte) := <[path := []]> f.

Definition files_of_Write (f : gmap string (list byte)) (path : string)
  (data : list byte) : gmap string (list byte) :=
  <[path := (default [] (f !! path) ++ data)%list]> f.

Definition files_of_Rename (f : gmap string (list byte)) (old new : string)
  : gmap string (list byte) :=
  match f !! old with
  | Some content => <[new := content]> (delete old f)
  | None => f
  end.

(** [os.Stat], of which the program keeps the error only. *)
Definition os_Stat (path : string) : M (option error) :=
  w <- get_world ;;
  let res := env_Stat env (files w) (trace w) path in
  log (EvStat path res) ;;;
  ret res.

(** [os.MkdirAll] *)
Definition os_MkdirAll (path : string) (perm : Z) : M (option error) :=
  w <- get_world ;;
  let res := env_MkdirAll env (files w) (trace w) path perm in
  log (EvMkdirAll path perm res) ;;;
  ret res.

(** [os.Create]: on success the file exists and is empty. *)
Definition os_Create (path : string) : M (option error) :=
  w <- get_world ;;
  let res := env_Create env (files w) (trace w) path in
  log (EvCreate path res) ;;;
  match res with
  | Some err => ret (Some err)
  | None => set_files (files_of_Create (files w) path) ;;; ret None
  end.

(** [os.File.Write]: the bytes that reach the file are appended to it;
    fewer than [len(b)] without an error is [io.ErrShortWrite]. *)
Definition File_Write (path : string) (b : list byte) : M (Z * option error) :=
  w <- get_world ;;
  let '(k, e) := env_Write env (files w) (trace w) path b in
  let data := take k b in
  let err :=
    match e with
    | Some e' => Some e'
    | None => if (len data =? len b)%Z then None else Some ErrShortWrite
    end in
  log (EvWrite path data err) ;;;
  set_files (files_of_Write (files w) path data) ;;;
  ret (len data, err).

(** [os.File.Close], whose error the program drops. *)
Definition File_Close (path : string) : M unit := log (EvClose path).

(** [http.Get], of which the program uses the body only. *)
Definition http_Get (url : string) : M (error + Body) :=
  w <- get_world ;;
  let res := env_Get env (files w) (trace w) url in
  log (EvGet url (match res with inl e => Some e | inr _ => None end)) ;;;
  ret res.

Definition Body_Close (url : string) : M unit := log (EvBodyClose url).

(** [os.Rename]: on success the old name is gone and the new name holds
    what the old one held, replacing what was there. *)
Definition os_Rename (old new : string) : M (option error) :=
  w <- get_world ;;
  let res := env_Rename env (files w) (trace w) old new in
  log (EvRename old new res) ;;;
  match res with
  | Some err => ret (Some err)
  | None => set_files (files_of_Rename (files w) old new) ;;; ret None
  end.

(** *** [WriteCounter] *)

(** [func (wc WriteCounter) PrintProgress()] *)
Definition PrintProgress (wc : WriteCounter) : M unit :=
  print (CR +:+ strings_Repeat " " 50) ;;;
  print (CR +:+ "Downloading... " +:+ humanize_Bytes env (Total wc) +:+ " complete").

(** The arithmetic of [Write]: [wc.Total += uint64(n)]. *)
Definition Write_Total (total : Z) (p : list byte) : Z :=
  ((total + len p) mod uint64_mod)%Z.

(** [func (wc *WriteCounter) Write(p []byte) (int, error)], on the counter
    object of the world. *)
Definition WriteCounter_Write (p : list byte) : M (Z * option error) :=
  let n := len p in
  w <- get_world ;;
  let wc := mkWriteCounter (Write_Total (Total (counter w)) p) in
  set_counter wc ;;;
  PrintProgress wc ;;;
  ret (n, None).

(** *** [io.TeeReader] and [io.Copy] *)

(** [teeReader.Read], given what the underlying [Read] returned: the
    bytes read go to the writer, whose error and count replace the
    reader's. *)
Definition teeReader_Read (w : list byte -> M (Z * option error))
  (rd : list byte * option error) : M (list byte * option error) :=
  let '(p, err) := rd in
  if (0 <? len p)%Z then
    '(n, werr) <- w p ;;
    match werr with
    | Some e => ret (take (Z.to_nat n) p, Some e)
    | None => ret (p, err)
    end
  else ret (p, err).

(** The loop of [io.Copy] after a [Read] that returned the error [er]:
    [io.EOF] ends the copy without an error, another error ends it with
    that error ([inl], the result of [io.Copy]), none lets it go on
    ([inr], with the bytes written so far). *)
Definition after_read (written : Z) (er : option error)
  : (Z * option error) + Z :=
  match er with
  | Some EOF => inl (written, None)
  | Some e => inl (written, Some e)
  | None => inr written
  end.

(** The loop of [io.Copy] after the [Write] of the [nr] bytes read
    returned [nw] and [ew]. *)
Definition after_write (written nr : Z) (er : option error)
  (nw : Z) (ew : option error) : (Z * option error) + Z :=
  let '(nw, ew) :=
    if ((nw <? 0) || (nr <? nw))%Z
    then (0%Z, match ew with None => Some errInvalidWrite | _ => ew end)
    else (nw, ew) in
  let written := (written + nw)%Z in
  match ew with
  | Some e => inl (written, Some e)
  | None =>
      if negb (nr =? nw)%Z then inl (written, Some ErrShortWrite)
      else after_read written er
  end.

(** One turn of the loop of [io.Copy] after the [Read]. *)
Definition copy_step (dst : string) (written : Z)
  (rd : list byte * option error) : M ((Z * option error) + Z) :=
  let '(p, er) := rd in
  let nr := len p in
  if (0 <? nr)%Z then
    '(nw, ew) <- File_Write dst p ;;
    ret (after_write written nr er nw ew)
  else ret (after_read written er).

(** [io.Copy(dst, io.TeeReader(src, w))] with [dst] a file. *)
Fixpoint io_Copy_tee (dst : string) (w : list byte -> M (Z * option error))
  (src : Body) (written : Z) : M (Z * option error) :=
  match src with
  | [] => ret (written, None)
  | rd :: rest =>
      rd' <- teeReader_Read w rd ;;
      r <- copy_step dst written rd' ;;
      match r with
      | inl res => ret res
      | inr written' => io_Copy_tee dst w rest written'
      end
  end.

(** [io.Copy(dst, src)] with [dst] a file, without the tee. *)
Fixpoint io_Copy (dst : string) (src : Body) (written : Z)
  : M (Z * option error) :=
  match src with
  | [] => ret (written, None)
  | rd :: rest =>
      r <- copy_step dst written rd ;;
      match r with
      | inl res => ret res
      | inr written' => io_Copy dst rest written'
      end
  end.

(** *** [getFileName] *)

(** [segments[len(segments)-1]] *)
Definition last_segment (segments : list string) : outcome string :=
  match last segments with
  | Some s => Ret s
  | None => Panic (RuntimeError "index out of range [-1]")
  end.

Definition getFileName (fullUrlFile : string) : outcome string :=
  match url_Parse env fullUrlFile with
  | inl err => Panic err
  | inr fileUrl =>
      let path := Path fileUrl in
      let segments := strings_Split path slash in
      last_segment segments
  end.

(** *** [DownloadFile] *)

Definition staging_path (dir fileName : string) : string :=
  dir +:+ "/" +:+ fileName +:+ ".tmp".

Definition final_path (dir fileName : string) : string :=
  dir +:+ "/" +:+ fileName.

Definition lift {A} (o : outcome A) : M A := fun w => (o, w).

Definition DownloadFile (url dir : string) : M (option error) :=
  fileName <- lift (getFileName url) ;;
  err <- os_Create (staging_path dir fileName) ;;
  match err with
  | Some e => ret (Some e)
  | None =>
      defer (File_Close (staging_path dir fileName)) (
        resp <- http_Get url ;;
        match resp with
        | inl e => ret (Some e)
        | inr body =>
            defer (Body_Close url) (
              set_counter (mkWriteCounter 0) ;;;
              '(_, err) <- io_Copy_tee (staging_path dir fileName)
                             WriteCounter_Write body 0%Z ;;
              match err with
              | Some e => ret (Some e)
              | None =>
                  fmt_Println [] ;;;
                  err <- os_Rename (staging_path dir fileName)
                                   (final_path dir fileName) ;;
                  match err with
                  | Some e => ret (Some e)
                  | None => ret None
                  end
              end)
        end)
  end.

(** *** [main] *)

(** The callback registered with [c.OnHTML("img[src]", ...)]. *)
Definition on_img (dir : string) (src : string) : M unit :=
  fmt_Println ["image src: "; src] ;;;
  err <- DownloadFile src dir ;;
  match err with
  | Some e => panic e
  | None => ret tt
  end.

Fixpoint for_each {A} (f : A -> M unit) (l : list A) : M unit :=
  match l with
  | [] => ret tt
  | x :: l' => f x ;;; for_each f l'
  end.

(** [c.Visit(url)]: the callback runs on the [src] of every [img]
    element of the page, in document order; the error of [Visit] is
    dropped. *)
Definition colly_Visit (url : string) (callback : string -> M unit) : M unit :=
  w <- get_world ;;
  log (EvVisit url) ;;;
  for_each callback (env_Visit env (files w) (trace w) url).

Definition main (Args : list string) : M unit :=
  (if negb (len Args =? 3)%Z then
     fmt_Println ["usage: download url directory"] ;;;
     os_Exit 1
   else ret tt) ;;;
  fmt_Println ["Download Started"] ;;;
  let url := default "" (Args !! 1%nat) in
  let dir := default "" (Args !! 2%nat) in
  err <- os_Stat dir ;;
  (if os_IsNotExist err then
     _ <- os_MkdirAll dir 448 ;; ret tt
   else ret tt) ;;;
  colly_Visit url (on_img dir) ;;;
  fmt_Println ["Grabbing completed!"].

End Program.

(** ** A reference parser for [net/url]

    [url.Parse] is library code.  The program's definitions take it from
    the environment; this module gives one instance, following
    [net/url]'s [Parse], [parse], [getScheme], [setPath] and [unescape],
    for running the program on concrete locators.  It answers [None]
    where the authority needs the library's rules for user information,
    ports and IP literals, which are not written out here. *)
Module RefURL.

Definition byte_in (lo hi : string) (c : ascii) : bool :=
  match lo, hi with
  | String l _, String h _ =>
      (nat_of_ascii l <=? nat_of_ascii c)%nat && (nat_of_ascii c <=? nat_of_ascii h)%nat
  | _, _ => false
  end.

Definition is_alpha (c : ascii) : bool := byte_in "a" "z" c || byte_in "A" "Z" c.
Definition is_digit (c : ascii) : bool := byte_in "0" "9" c.
Definition ishex (c : ascii) : bool :=
  is_digit c || byte_in "a" "f" c || byte_in "A" "F" c.

Definition unhex (c : ascii) : nat :=
  if is_digit c then nat_of_ascii c - 48
  else if byte_in "a" "f" c then nat_of_ascii c - 97 + 10
  else if byte_in "A" "F" c then nat_of_ascii c - 65 + 10
  else 0.

Fixpoint string_exists (f : ascii -> bool) (s : string) : bool :=
  match s with
  | EmptyString => false
  | String c s' => f c || string_exists f s'
  end.

(** [stringContainsCTLByte] *)
Definition stringContainsCTLByte (s : string) : bool :=
  string_exists (fun c => (nat_of_ascii c <? 32)%nat || (nat_of_ascii c =? 127)%nat) s.

(** [strings.Cut(s, sep)] for a separator of one byte. *)
Fixpoint Cut (s : string) (sep : ascii) : string * string * bool :=
  match s with
  | EmptyString => ("", "", false)
  | String c s' =>
      if Ascii.eqb c sep then ("", s', true)
      else let '(before, after, found) := Cut s' sep in (String c before, after, found)
  end.

Definition to_lower (c : ascii) : ascii :=
  if byte_in "A" "Z" c then ascii_of_nat (nat_of_ascii c + 32) else c.

(** [strings.ToLower] on ASCII *)
Fixpoint ToLower (s : string) : string :=
  match s with
  | EmptyString => ""
  | String c s' => String (to_lower c) (ToLower s')
  end.

(** [getScheme]: the loop over [rawURL], at index [i] with [rawURL[:i]]
    in [seen]. *)
Fixpoint getScheme_loop (rawURL : string) (i : nat) (seen rest : string)
  : string + (string * string) :=
  match rest with
  | EmptyString => inr ("", rawURL)
  | String c rest' =>
      if is_alpha c then getScheme_loop rawURL (S i) (seen +:+ String c "") rest'
      else if is_digit c || Ascii.eqb c "+" || Ascii.eqb c "-" || Ascii.eqb c "." then
        if (i =? 0)%nat then inr ("", rawURL)
        else getScheme_loop rawURL (S i) (seen +:+ String c "") rest'
      else if Ascii.eqb c ":" then
        if (i =? 0)%nat then inl "missing protocol scheme"
        else inr (seen, rest')
      else inr ("", rawURL)
  end.

Definition getScheme (rawURL : string) : string + (string * string) :=
  getScheme_loop rawURL 0 "" rawURL.

Definition quote : string := String (ascii_of_nat 34) "".

Definition EscapeError (s : string) : string :=
  "invalid URL escape " +:+ quote +:+ s +:+ quote.

(** [unescape(s, encodePath)] and [unescape(s, encodeFragment)]: every
    [%] must be followed by two hexadecimal digits, which it stands for. *)
Fixpoint unescape (s : string) : string + string :=
  match s with
  | EmptyString => inr ""
  | String c rest =>
      if Ascii.eqb c "%" then
        match rest with
        | String a (String b rest') =>
            if ishex a && ishex b then
              match unescape rest' with
              | inr r => inr (String (ascii_of_nat (unhex a * 16 + unhex b)) r)
              | inl e => inl e
              end
            else inl (EscapeError (String c (String a (String b ""))))
        | _ => inl (EscapeError s)
        end
      else
        match unescape rest with
        | inr r => inr (String c r)
        | inl e => inl e
        end
  end.

(** The authorities whose host [parseAuthority] returns as it stands:
    letters, digits, [-], [.], [_] and [~] only. *)
Definition plain_host (authority : string) : bool :=
  negb (string_exists
          (fun c => negb (is_alpha c || is_digit c || Ascii.eqb c "-"
                          || Ascii.eqb c "." || Ascii.eqb c "_" || Ascii.eqb c "~"))
          authority).

Definition HasPrefix (s prefix : string) : bool := String.prefix prefix s.

(** [parse(rawURL, false)] *)
Definition parse (rawURL : string) : option (string + URL) :=
  if stringContainsCTLByte rawURL then
    Some (inl "net/url: invalid control character in URL")
  else if String.eqb rawURL "*" then Some (inr (mkURL "" "" "" "*" "" ""))
  else
    match getScheme rawURL with
    | inl e => Some (inl e)
    | inr (scheme, rest) =>
        let scheme := ToLower scheme in
        let '(rest, rawQuery, _) := Cut rest "?" in
        if negb (HasPrefix rest "/") && negb (String.eqb scheme "") then
          Some (inr (mkURL scheme rest "" "" rawQuery ""))
        else if negb (HasPrefix rest "/")
                && string_exists (Ascii.eqb ":") (fst (fst (Cut rest "/"))) then
          Some (inl "first path segment in URL cannot contain colon")
        else
          let setPath (host rest : string) : option (string + URL) :=
            match unescape rest with
            | inl e => Some (inl e)
            | inr path => Some (inr (mkURL scheme "" host path rawQuery ""))
            end in
          if (negb (String.eqb scheme "") || negb (HasPrefix rest "///"))
             && HasPrefix rest "//" then
            let after := String.substring 2 (String.length rest - 2) rest in
            let '(authority, tail, found) := Cut after "/" in
            let rest := if found then String "/" tail else "" in
            if plain_host authority then setPath authority rest else None
          else setPath "" rest
    end.

(** [url.Parse] *)
Definition Parse (rawURL : string) : option (error + URL) :=
  let '(u, frag, _) := Cut rawURL "#" in
  match parse u with
  | None => None
  | Some (inl e) => Some (inl (UrlError "parse" u e))
  | Some (inr url) =>
      if String.eqb frag "" then Some (inr url)
      else
        match unescape frag with
        | inl e => Some (inl (UrlError "parse" rawURL e))
        | inr f =>
            Some (inr (mkURL (Scheme url) (Opaque url) (Host url) (Path url)
                             (RawQuery url) f))
        end
  end.

End RefURL.

(** ** A sample environment

    The reference parser; the system calls succeed unless the sample says
    otherwise.  [fault] names what fails: the creation of the staging
    file (the directory is then reported as missing and cannot be made
    either), the request, a read of the body, a write to the file, or the
    rename. *)
Module Sample.

Inductive fault : Type :=
  | NoFault | FailCreate | FailGet | FailRead | FailWrite | FailRename.

Definition b (n : N) : byte := default x00 (Byte.of_N n).

Definition page_body : Body :=
  [([b 1; b 2; b 3], None); ([b 4; b 5], None); ([], Some EOF)].

Definition broken_body : Body :=
  [([b 1; b 2; b 3], None); ([], Some (NetError "connection reset by peer"))].

Definition Parse (s : string) : error + URL :=
  match RefURL.Parse s with
  | Some r => r
  | None => inl (UrlError "parse" s "outside the reference parser")
  end.

Definition humanize (n : Z) : string :=
  match n with
  | 0%Z => "0 B" | 1%Z => "1 B" | 2%Z => "2 B" | 3%Z => "3 B"
  | 4%Z => "4 B" | 5%Z => "5 B" | _ => "many B"
  end.

Definition env (f : fault) (imgs : list string) : Env := {|
  url_Parse := Parse;
  humanize_Bytes := humanize;
  env_Stat := fun _ _ path =>
    match f with FailCreate => Some (PathError "stat" path ENOENT) | _ => None end;
  env_MkdirAll := fun _ _ path _ =>
    match f with FailCreate => Some (PathError "mkdir" path EACCES) | _ => None end;
  env_Visit := fun _ _ _ => imgs;
  env_Create := fun _ _ path =>
    match f with FailCreate => Some (PathError "open" path EACCES) | _ => None end;
  env_Get := fun _ _ url =>
    match f with
    | FailGet => inl (UrlError "Get" url "dial tcp: connection refused")
    | FailRead => inr broken_body
    | _ => inr page_body
    end;
  env_Write := fun _ _ _ p =>
    match f with
    | FailWrite => (1%nat, Some (PathError "write" "" ENOSPC))
    | _ => (length p, None)
    end;
  env_Rename := fun _ _ old new =>
    match f with FailRename => Some (LinkError "rename" old new EACCES) | _ => None end
|}.

Definition world0 : World := mkWorld ∅ (mkWriteCounter 0) [] [].

(** A world in which an earlier run left files behind. *)
Definition world1 : World :=
  mkWorld (<["/tmp/out/42.png" := [b 9]]> (<["/tmp/out/42.png.tmp" := [b 7; b 7]]> ∅))
          (mkWriteCounter 0) [] [].

End Sample.

(** ** The second revision of [main.go]

    The second revision keeps [WriteCounter], [DownloadFile] and
    [getFileName] and adds [getHostName]; its [main] collects the links of
    the page that contain [/photo/] and opens the first of them in a
    browser.  What the page links to and what the browser answers are two
    more parameters. *)
Module Revision2.

(** [strings.Contains] *)
Fixpoint strings_Contains (s substr : string) : bool :=
  String.prefix substr s ||
  match s with
  | EmptyString => false
  | String _ s' => strings_Contains s' substr
  end.

Section Program.

Variable env : Env.

(** The [href] of every [a] element of the page, in document order. *)
Variable env_Links : gmap string (list byte) -> list Event -> string -> list string.

(** [chromedp.Run] on the three actions of [main], given the locator it
    navigates to: an error, or the value read into [example]. *)
Variable chromedp_Run : gmap string (list byte) -> list Event -> string
                        -> error + string.

Definition getHostName (fullUrlFile : string) : outcome string :=
  match url_Parse env fullUrlFile with
  | inl err => Panic err
  | inr fileUrl => Ret (Scheme fileUrl +:+ "://" +:+ Host fileUrl)
  end.

(** The callback registered with [c.OnHTML("a[href]", ...)], on the
    slice [links] it appends to. *)
Definition on_href (links : list string) (link : string) : list string :=
  if strings_Contains link "/photo/" then links ++ [link] else links.

(** [c.Visit(url)] with that callback: the links collected. *)
Definition colly_Visit (url : string) : M (list string) :=
  w <- get_world ;;
  log (EvVisit url) ;;;
  ret (foldl on_href [] (env_Links (files w) (trace w) url)).

(** The loop over [links], whose body ends in [break]; [img] is never
    assigned.  The deferred [cancel] acts on the browser only. *)
Definition open_first (host : string) (links : list string) : M unit :=
  match links with
  | [] => ret tt
  | link :: _ =>
      fmt_Println [host +:+ link] ;;;
      w <- get_world ;;
      match chromedp_Run (files w) (trace w) (host +:+ link) with
      | inl err => panic err
      | inr example =>
          fmt_Println [""] ;;;
          fmt_Println [example]
      end
  end.

Definition main (Args : list string) : M unit :=
  (if negb (len Args =? 3)%Z then
     fmt_Println ["usage: download url directory"] ;;;
     os_Exit 1
   else ret tt) ;;;
  fmt_Println ["Download Started"] ;;;
  let url := default "" (Args !! 1%nat) in
  let dir := default "" (Args !! 2%nat) in
  host <- lift (getHostName url) ;;
  err <- os_Stat env dir ;;
  (if os_IsNotExist err then
     _ <- os_MkdirAll env dir 448 ;; ret tt
   else ret tt) ;;;
  links <- colly_Visit url ;;
  open_first host links ;;;
  fmt_Println ["Grabbing completed!"].

End Program.

End Revision2.

(** ** The vocabulary of the statements *)

(** The world after one [Write] of the chunk [p]. *)
Definition world_after_Write (env : Env) (p : list byte) (w : World) : World :=
  let wc := mkWriteCounter (Write_Total (Total (counter w)) p) in
  mkWorld (files w) wc
          ((stdout w ++ [CR +:+ strings_Repeat " " 50]) ++
           [CR +:+ "Downloading... " +:+ humanize_Bytes env (Total wc) +:+ " complete"])
          (trace w).

(** The [Total] read after each of a sequence of [Write]s. *)
Fixpoint Totals_after (env : Env) (ps : list (list byte)) (w : World) : list Z :=
  match ps with
  | [] => []
  | p :: ps' =>
      let w' := snd (WriteCounter_Write env p w) in
      Total (counter w') :: Totals_after env ps' w'
  end.

Fixpoint nondecreasing (l : list Z) : Prop :=
  match l with
  | x :: ((y :: _) as l') => (x <= y)%Z /\ nondecreasing l'
  | _ => True
  end.

(** Two worlds that differ in the counter and in what was printed only. *)
Definition same_outside (w1 w2 : World) : Prop :=
  files w1 = files w2 /\ trace w1 = trace w2.

(** What [File_Write] returns and the world it leaves. *)
Definition File_Write_data (env : Env) (path : string) (p : list byte)
  (w : World) : list byte :=
  take (fst (env_Write env (files w) (trace w) path p)) p.

Definition File_Write_err (env : Env) (path : string) (p : list byte)
  (w : World) : option error :=
  match snd (env_Write env (files w) (trace w) path p) with
  | Some e => Some e
  | None =>
      if (len (File_Write_data env path p w) =? len p)%Z then None
      else Some ErrShortWrite
  end.

Definition world_after_File_Write (env : Env) (path : string) (p : list byte)
  (w : World) : World :=
  mkWorld (files_of_Write (files w) path (File_Write_data env path p w))
          (counter w) (stdout w)
          (trace w ++ [EvWrite path (File_Write_data env path p w)
                               (File_Write_err env path p w)]).

(** The bytes of a body: what the reads deliver up to the first read that
    returns an error, [io.EOF] included. *)
Fixpoint body_bytes (body : Body) : list byte :=
  match body with
  | [] => []
  | (p, None) :: rest => (p ++ body_bytes rest)%list
  | (p, Some _) :: _ => p
  end.

(** The error that ends the stream, when it is not [io.EOF]. *)
Fixpoint body_error (body : Body) : option error :=
  match body with
  | [] => None
  | (_, None) :: rest => body_error rest
  | (_, Some EOF) :: _ => None
  | (_, Some e) :: _ => Some e
  end.

(** The error a logged call returned. *)
Definition event_result (e : Event) : option error :=
  match e with
  | EvStat _ r | EvMkdirAll _ _ r | EvCreate _ r | EvGet _ r
  | EvWrite _ _ r | EvRename _ _ r => r
  | EvVisit _ | EvClose _ | EvBodyClose _ => None
  end.

(** The bytes that reached files, in order. *)
Fixpoint written_data (evs : list Event) : list byte :=
  match evs with
  | [] => []
  | EvWrite _ d _ :: evs' => (d ++ written_data evs')%list
  | _ :: evs' => written_data evs'
  end.

(** What a logged call did to the files. *)
Definition apply_event (f : gmap string (list byte)) (e : Event)
  : gmap string (list byte) :=
  match e with
  | EvCreate p None => files_of_Create f p
  | EvWrite p d _ => files_of_Write f p d
  | EvRename old new None => files_of_Rename f old new
  | _ => f
  end.

(** The files after a sequence of logged calls. *)
Definition replay (f : gmap string (list byte)) (evs : list Event)
  : gmap string (list byte) := foldl apply_event f evs.

Definition writes_to (path : string) (e : Event) : Prop :=
  exists d r, e = EvWrite path d r.

(** The logs a Transfer of [url] with staging file [tmp] and final name
    [fin] can leave, with the error [DownloadFile] returns. *)
Inductive Transfer_log (url tmp fin : string) : list Event -> option error -> Prop :=
  | Create_failed e :
      Transfer_log url tmp fin [EvCreate tmp (Some e)] (Some e)
  | Get_failed e :
      Transfer_log url tmp fin
        [EvCreate tmp None; EvGet url (Some e); EvClose tmp] (Some e)
  | Copy_failed wevs e :
      Forall (writes_to tmp) wevs ->
      Transfer_log url tmp fin
        ([EvCreate tmp None; EvGet url None] ++ wevs ++
         [EvBodyClose url; EvClose tmp]) (Some e)
  | Rename_failed wevs e :
      Forall (writes_to tmp) wevs ->
      Forall (fun ev => event_result ev = None) wevs ->
      Transfer_log url tmp fin
        ([EvCreate tmp None; EvGet url None] ++ wevs ++
         [EvRename tmp fin (Some e); EvBodyClose url; EvClose tmp]) (Some e)
  | Committed wevs :
      Forall (writes_to tmp) wevs ->
      Forall (fun ev => event_result ev = None) wevs ->
      Transfer_log url tmp fin
        ([EvCreate tmp None; EvGet url None] ++ wevs ++
         [EvRename tmp fin None; EvBodyClose url; EvClose tmp]) None.

Fixpoint has_byte (c : ascii) (s : string) : bool :=
  match s with
  | EmptyString => false
  | String c' s' => Ascii.eqb c' c || has_byte c s'
  end.

(** The world in which [main], run with two arguments, calls [c.Visit]:
    it has printed its first line, called [os.Stat] and, when the
    directory does not exist, [os.MkdirAll]. *)
Definition world_before_Visit (env : Env) (dir : string) (w : World) : World :=
  let st := env_Stat env (files w) (trace w) dir in
  let t1 := trace w ++ [EvStat dir st] in
  mkWorld (files w) (counter w)
          (stdout w ++ [String.concat " " ["Download Started"] +:+ LF])
          (if os_IsNotExist st
           then t1 ++ [EvMkdirAll dir 448 (env_MkdirAll env (files w) t1 dir 448)]
           else t1).

Definition world_at_Visit (page : string) (w : World) : World :=
  mkWorld (files w) (counter w) (stdout w) (trace w ++ [EvVisit page]).

(** A logged call that leaves the file named [path] as it is. *)
Definition leaves (path : string) (e : Event) : Prop :=
  match e with
  | EvCreate p None => p <> path
  | EvWrite p _ _ => p <> path
  | EvRename old new None => old <> path /\ new <> path
  | _ => True
  end.

Definition is_rename (e : Event) : bool :=
  match e with EvRename _ _ _ => true | _ => false end.

(** The world in which the callback of [main], having printed the
    locator, calls [DownloadFile]. *)
Definition world_in_callback (src : string) (w : World) : World :=
  mkWorld (files w) (counter w)
          (stdout w ++ [String.concat " " ["image src: "; src] +:+ LF]) (trace w).

(** What a Transfer prints while it copies a body, the counter starting
    at [t]: for every read that delivers bytes, the line that clears the
    status line and the line with the new total. *)
Fixpoint progress_of (env : Env) (t : Z) (body : Body) : list string :=
  match body with
  | [] => []
  | (p, er) :: rest =>
      let t' := if (0 <? len p)%Z then Write_Total t p else t in
      (if (0 <? len p)%Z
       then [CR +:+ strings_Repeat " " 50;
             CR +:+ "Downloading... " +:+ humanize_Bytes env t' +:+ " complete"]
       else []) ++
      match er with
      | None => progress_of env t' rest
      | Some _ => []
      end
  end.

Definition is_close (e : Event) : bool :=
  match e with EvClose _ => true | _ => false end.

Definition is_body_close (e : Event) : bool :=
  match e with EvBodyClose _ => true | _ => false end.

Definition is_commit (e : Event) : bool :=
  match e with EvRename _ _ None => true | _ => false end.

Definition is_mkdir (e : Event) : bool :=
  match e with EvMkdirAll _ _ _ => true | _ => false end.


(** The world after printing the strings [out]. *)
Definition world_printing (out : list string) (w : World) : World :=
  mkWorld (files w) (counter w) (stdout w ++ out) (trace w).

(** [fmt.Println] of one string. *)
Definition line (s : string) : string := String.concat " " [s] +:+ LF.

(** ** The progress counter *)

Ltac unfold_monad :=
  cbv beta iota delta [bind ret lift get_world log print set_files set_counter
                       panic os_Exit];
  cbn [files counter stdout trace fst snd].

Lemma WriteCounter_Write_run env p w :
  WriteCounter_Write env p w = (Ret (len p, None), world_after_Write env p w).
Proof. reflexivity. Qed.

Lemma len_nonneg {A} (l : list A) : (0 <= len l)%Z.
Proof. unfold len. lia. Qed.

Lemma len_app {A} (l1 l2 : list A) : len (l1 ++ l2) = (len l1 + len l2)%Z.
Proof. unfold len. rewrite length_app. lia. Qed.

Lemma uint64_mod_pos : (0 < uint64_mod)%Z.
Proof. reflexivity. Qed.

Lemma Write_Total_range t p : (0 <= Write_Total t p < uint64_mod)%Z.
Proof. unfold Write_Total. apply Z.mod_pos_bound, uint64_mod_pos. Qed.

Lemma Write_Total_no_wrap t p :
  (0 <= t)%Z -> (t + len p < uint64_mod)%Z -> Write_Total t p = (t + len p)%Z.
Proof.
  intros Ht Hlt. unfold Write_Total. apply Z.mod_small.
  pose proof (len_nonneg p). lia.
Qed.

Lemma Totals_after_nondecreasing env ps : forall w,
  (0 <= Total (counter w))%Z ->
  (Total (counter w) + len (concat ps) < uint64_mod)%Z ->
  nondecreasing (Total (counter w) :: Totals_after env ps w).
Proof.
  induction ps as [|p ps IH]; intros w H0 Hlt; [exact I|].
  simpl concat in Hlt. rewrite len_app in Hlt.
  pose proof (len_nonneg p) as Hp. pose proof (len_nonneg (concat ps)) as Hps.
  assert (Hstep : Total (counter (world_after_Write env p w))
                  = (Total (counter w) + len p)%Z).
  { simpl. apply Write_Total_no_wrap; lia. }
  cbn [Totals_after]. rewrite WriteCounter_Write_run. cbn [snd].
  split; [rewrite Hstep; lia|].
  apply IH; rewrite Hstep; lia.
Qed.

(** C7. One [Write] replaces [Total] by [Total + len(p)] in [uint64]
    arithmetic and [len(p)] is not negative; over the chunk writes of a
    Transfer whose bytes, added to the starting [Total], stay below 2^64
    (the counter does not wrap), the successive values of [Total] never
    decrease. *)
Theorem Total_never_decreases env (ps : list (list byte)) (w : World) :
  (0 <= Total (counter w))%Z ->
  (Total (counter w) + len (concat ps) < uint64_mod)%Z ->
  (forall p w0,
      Total (counter (snd (WriteCounter_Write env p w0)))
      = ((Total (counter w0) + len p) mod 2 ^ 64)%Z /\ (0 <= len p)%Z) /\
  nondecreasing (Total (counter w) :: Totals_after env ps w).
Proof.
  intros H0 Hlt. split.
  - intros p w0. split; [reflexivity | apply len_nonneg].
  - by apply Totals_after_nondecreasing.
Qed.

Lemma Total_never_decreases_witness :
  nondecreasing
    (0%Z :: Totals_after (Sample.env Sample.NoFault [])
              [[Sample.b 1; Sample.b 2; Sample.b 3]; []; [Sample.b 4; Sample.b 5]]
              Sample.world0).
Proof.
  apply (Total_never_decreases (Sample.env Sample.NoFault [])
           [[Sample.b 1; Sample.b 2; Sample.b 3]; []; [Sample.b 4; Sample.b 5]]
           Sample.world0); vm_compute; [discriminate | reflexivity].
Defined.

(** What the tee hands to [io.Copy] when its writer is the counter: the
    read as it was. *)
Lemma teeReader_Read_counter env rd w :
  teeReader_Read (WriteCounter_Write env) rd w =
  (Ret rd, if (0 <? len (fst rd))%Z then world_after_Write env (fst rd) w else w).
Proof.
  destruct rd as [p err]. unfold teeReader_Read. cbn [fst].
  destruct (0 <? len p)%Z; [|reflexivity].
  unfold bind. rewrite WriteCounter_Write_run. reflexivity.
Qed.

Lemma same_outside_refl w : same_outside w w.
Proof. by split. Qed.

Lemma same_outside_Write env p w1 w2 :
  same_outside w1 w2 -> same_outside (world_after_Write env p w1) w2.
Proof. intros [Hf Ht]. by split. Qed.

Lemma File_Write_run env path p w :
  File_Write env path p w =
  (Ret (len (File_Write_data env path p w), File_Write_err env path p w),
   world_after_File_Write env path p w).
Proof.
  unfold File_Write, world_after_File_Write, File_Write_err, File_Write_data.
  unfold_monad.
  by destruct (env_Write env (files w) (trace w) path p) as [k e].
Qed.

Lemma copy_step_run env dst written p er w :
  copy_step env dst written (p, er) w =
  if (0 <? len p)%Z
  then (Ret (after_write written (len p) er
               (len (File_Write_data env dst p w)) (File_Write_err env dst p w)),
        world_after_File_Write env dst p w)
  else (Ret (after_read written er), w).
Proof.
  unfold copy_step. destruct (0 <? len p)%Z; [|reflexivity].
  unfold bind. by rewrite File_Write_run.
Qed.

Lemma File_Write_same_outside env dst p w1 w2 :
  same_outside w1 w2 ->
  File_Write_data env dst p w1 = File_Write_data env dst p w2 /\
  File_Write_err env dst p w1 = File_Write_err env dst p w2.
Proof.
  intros [Hf Ht]. unfold File_Write_err, File_Write_data. by rewrite Hf, Ht.
Qed.

Lemma copy_step_same_outside env dst written rd w1 w2 :
  same_outside w1 w2 ->
  exists r w1' w2',
    copy_step env dst written rd w1 = (Ret r, w1') /\
    copy_step env dst written rd w2 = (Ret r, w2') /\
    same_outside w1' w2'.
Proof.
  intros Hs. destruct rd as [p er]. rewrite !copy_step_run.
  destruct (File_Write_same_outside env dst p w1 w2 Hs) as [Hd He].
  destruct Hs as [Hf Ht].
  destruct (0 <? len p)%Z; eexists _, _, _; (split; [reflexivity|]).
  - rewrite Hd, He. split; [reflexivity|].
    unfold world_after_File_Write, same_outside. cbn [files trace].
    by rewrite Hd, He, Hf, Ht.
  - split; [reflexivity|]. by split.
Qed.

(** The copy through the tee and the copy without it return the same and
    do the same to the files, by the same calls. *)
Lemma io_Copy_tee_counter env dst body : forall written w1 w2,
  same_outside w1 w2 ->
  exists res w1' w2',
    io_Copy_tee env dst (WriteCounter_Write env) body written w1 = (Ret res, w1') /\
    io_Copy env dst body written w2 = (Ret res, w2') /\
    same_outside w1' w2'.
Proof.
  induction body as [|rd body IH]; intros written w1 w2 Hs.
  - eexists _, _, _. split; [reflexivity|]. split; [reflexivity|]. done.
  - cbn [io_Copy_tee io_Copy]. unfold bind at 1. rewrite teeReader_Read_counter.
    set (w1t := if (0 <? len (fst rd))%Z then _ else w1).
    assert (Hs' : same_outside w1t w2).
    { subst w1t. destruct (0 <? len (fst rd))%Z; [by apply same_outside_Write|done]. }
    destruct (copy_step_same_outside env dst written rd w1t w2 Hs')
      as (r & w1' & w2' & E1 & E2 & Hs'').
    unfold bind. rewrite E1, E2. destruct r as [res|written'].
    + eexists _, _, _. split; [reflexivity|]. split; [reflexivity|]. done.
    + by apply IH.
Qed.

(** C8. [Write] returns [len(p)] and a nil error for every chunk, and
    leaves the files and the log of calls as they were; so the copy
    through the tee returns what the copy without the counter returns, and
    leaves the same files by the same calls. *)
Theorem Write_is_observational env (p : list byte) (w : World) :
  (exists w', WriteCounter_Write env p w = (Ret (len p, None), w') /\
              files w' = files w /\ trace w' = trace w) /\
  (forall dst body written,
      exists res w1 w2,
        io_Copy_tee env dst (WriteCounter_Write env) body written w = (Ret res, w1) /\
        io_Copy env dst body written w = (Ret res, w2) /\
        files w1 = files w2 /\ trace w1 = trace w2).
Proof.
  split.
  - exists (world_after_Write env p w). by rewrite WriteCounter_Write_run.
  - intros dst body written.
    destruct (io_Copy_tee_counter env dst body written w w (same_outside_refl w))
      as (res & w1 & w2 & E1 & E2 & Hf & Ht).
    by exists res, w1, w2.
Qed.

(** ** The files during a Transfer *)

Lemma replay_app f evs1 evs2 :
  replay f (evs1 ++ evs2) = replay (replay f evs1) evs2.
Proof. apply foldl_app. Qed.

Lemma written_data_app evs1 evs2 :
  written_data (evs1 ++ evs2) = (written_data evs1 ++ written_data evs2)%list.
Proof.
  induction evs1 as [|e evs1 IH]; [reflexivity|].
  destruct e; simpl; rewrite IH; try reflexivity. by rewrite app_assoc.
Qed.

Lemma take_full {A} (k : nat) (p : list A) : len (take k p) = len p -> take k p = p.
Proof.
  unfold len. intros H. apply Nat2Z.inj in H.
  rewrite length_take in H. apply take_ge. lia.
Qed.

Lemma after_read_ok written er n :
  after_read written er = inl (n, None) -> er = Some EOF.
Proof. destruct er as [[]|]; simpl; congruence. Qed.

Lemma after_read_go written er written' :
  after_read written er = inr written' -> er = None.
Proof. destruct er as [[]|]; simpl; congruence. Qed.

(** [io.Copy] goes on, or ends without an error, only after a write that
    took all the bytes and returned no error. *)
Lemma after_write_complete written nr er nw ew r :
  after_write written nr er nw ew = r ->
  (forall n e, r <> inl (n, Some e)) ->
  nw = nr /\ ew = None /\ after_read (written + nr)%Z er = r.
Proof.
  unfold after_write. intros <- Hok.
  destruct ((nw <? 0)%Z || (nr <? nw)%Z).
  - exfalso. destruct ew; eapply Hok; reflexivity.
  - destruct ew as [e|]; [exfalso; eapply Hok; reflexivity|].
    destruct (Z.eqb_spec nr nw) as [->|Hne]; simpl in *.
    + done.
    + exfalso. eapply Hok; reflexivity.
Qed.

Lemma File_Write_complete env dst p w :
  len (File_Write_data env dst p w) = len p ->
  File_Write_data env dst p w = p.
Proof. apply take_full. Qed.

Lemma Write_Total_add t p q :
  Write_Total (Write_Total t p) q = Write_Total t (p ++ q).
Proof.
  unfold Write_Total. rewrite len_app, Z.add_mod_idemp_l by done.
  f_equal. lia.
Qed.

(** The copy of a body into the file [dst] through the counter: it
    returns; it logs writes to [dst] and nothing else; and when it returns
    no error, every write was complete, the stream ended in [io.EOF], the
    bytes written are the bytes of the body and the counter advanced by
    their number. *)
Lemma Write_Total_nil t : (0 <= t < uint64_mod)%Z -> Write_Total t [] = t.
Proof.
  intros Ht. unfold Write_Total, len. simpl. rewrite Z.add_0_r.
  by apply Z.mod_small.
Qed.

Lemma len_0_nil {A} (p : list A) : (0 <? len p)%Z = false -> p = [].
Proof.
  intros H. apply Z.ltb_ge in H. destruct p; [done|].
  unfold len in H. simpl length in H. lia.
Qed.

Lemma io_Copy_tee_spec env dst body : forall written w,
  (0 <= Total (counter w) < uint64_mod)%Z ->
  exists n cerr w' wevs,
    io_Copy_tee env dst (WriteCounter_Write env) body written w
      = (Ret (n, cerr), w') /\
    trace w' = (trace w ++ wevs)%list /\
    Forall (writes_to dst) wevs /\
    files w' = replay (files w) wevs /\
    (cerr = None ->
       written_data wevs = body_bytes body /\
       Forall (fun ev => event_result ev = None) wevs /\
       body_error body = None /\
       Total (counter w') = Write_Total (Total (counter w)) (body_bytes body)).
Proof.
  induction body as [|[p er] body IH]; intros written w Hrange.
  - exists written, None, w, []. split; [reflexivity|].
    split; [by rewrite app_nil_r|]. split; [constructor|]. split; [reflexivity|].
    intros _. split; [reflexivity|]. split; [constructor|]. split; [reflexivity|].
    by rewrite Write_Total_nil.
  - cbn [io_Copy_tee]. unfold bind at 1. rewrite teeReader_Read_counter. cbn [fst].
    unfold bind at 1. rewrite copy_step_run.
    destruct (0 <? len p)%Z eqn:Hp.
    + (* some bytes were read: the counter, then the file *)
      set (wt := world_after_Write env p w).
      set (data := File_Write_data env dst p wt).
      set (err := File_Write_err env dst p wt).
      set (ev := EvWrite dst data err).
      destruct (after_write written (len p) er (len data) err) as [[n cerr]|written']
        eqn:Hstep.
      * exists n, cerr, (world_after_File_Write env dst p wt), [ev].
        split; [reflexivity|]. split; [reflexivity|].
        split; [repeat constructor; by eexists _, _|]. split; [reflexivity|].
        intros ->.
        destruct (after_write_complete _ _ _ _ _ _ Hstep) as (Hlen & Herr & Hread);
          [intros ? ?; discriminate|].
        apply after_read_ok in Hread. subst er.
        apply File_Write_complete in Hlen. fold data in Hlen.
        subst ev. rewrite Herr, Hlen. simpl. rewrite app_nil_r.
        repeat split; auto.
      * destruct (after_write_complete _ _ _ _ _ _ Hstep) as (Hlen & Herr & Hread);
          [intros ? ?; discriminate|].
        apply after_read_go in Hread. subst er.
        apply File_Write_complete in Hlen. fold data in Hlen.
        destruct (IH written' (world_after_File_Write env dst p wt))
          as (n & cerr & w' & wevs & Hrun & Htr & Hw & Hf & Hok).
        { simpl. apply Write_Total_range. }
        exists n, cerr, w', (ev :: wevs).
        split; [exact Hrun|].
        split; [rewrite Htr; simpl; by rewrite <- app_assoc|].
        split; [constructor; [by eexists _, _|done]|].
        split; [rewrite Hf; reflexivity|].
        intros Hc. destruct (Hok Hc) as (Hd & Hres & Hbe & Htot).
        subst ev. simpl. rewrite Hd, Hlen, Herr.
        split; [done|]. split; [by constructor|]. split; [done|].
        rewrite Htot. simpl. apply Write_Total_add.
    + (* an empty read *)
      apply len_0_nil in Hp. subst p.
      destruct (after_read written er) as [[n cerr]|written'] eqn:Hstep.
      * exists n, cerr, w, []. split; [reflexivity|].
        split; [by rewrite app_nil_r|]. split; [constructor|]. split; [reflexivity|].
        intros ->. apply after_read_ok in Hstep. subst er. simpl.
        split; [done|]. split; [constructor|]. split; [done|].
        by rewrite Write_Total_nil.
      * apply after_read_go in Hstep. subst er.
        destruct (IH written' w Hrange)
          as (n & cerr & w' & wevs & Hrun & Htr & Hw & Hf & Hok).
        exists n, cerr, w', wevs. repeat (split; [done|]). done.
Qed.

Lemma os_Create_run env path w :
  os_Create env path w =
  match env_Create env (files w) (trace w) path with
  | Some e =>
      (Ret (Some e),
       mkWorld (files w) (counter w) (stdout w)
               (trace w ++ [EvCreate path (Some e)]))
  | None =>
      (Ret None,
       mkWorld (files_of_Create (files w) path) (counter w) (stdout w)
               (trace w ++ [EvCreate path None]))
  end.
Proof.
  unfold os_Create. unfold_monad.
  by destruct (env_Create env (files w) (trace w) path).
Qed.

Lemma http_Get_run env url w :
  http_Get env url w =
  (Ret (env_Get env (files w) (trace w) url),
   mkWorld (files w) (counter w) (stdout w)
     (trace w ++ [EvGet url match env_Get env (files w) (trace w) url with
                            | inl e => Some e
                            | inr _ => None
                            end])).
Proof. reflexivity. Qed.

Lemma os_Rename_run env old new w :
  os_Rename env old new w =
  match env_Rename env (files w) (trace w) old new with
  | Some e =>
      (Ret (Some e),
       mkWorld (files w) (counter w) (stdout w)
               (trace w ++ [EvRename old new (Some e)]))
  | None =>
      (Ret None,
       mkWorld (files_of_Rename (files w) old new) (counter w) (stdout w)
               (trace w ++ [EvRename old new None]))
  end.
Proof.
  unfold os_Rename. unfold_monad.
  by destruct (env_Rename env (files w) (trace w) old new).
Qed.

(** The run of [DownloadFile] once the name is derived: it returns, the
    log it leaves has one of the five shapes of [Transfer_log], the files
    are those the logged calls make, and a nil error means that the
    staging file received the bytes of the body, all of them, before the
    rename. *)
Lemma DownloadFile_spec env url dir w name :
  getFileName env url = Ret name ->
  exists res w' evs,
    DownloadFile env url dir w = (Ret res, w') /\
    trace w' = (trace w ++ evs)%list /\
    files w' = replay (files w) evs /\
    Transfer_log url (staging_path dir name) (final_path dir name) evs res /\
    head evs = Some (EvCreate (staging_path dir name)
                       (env_Create env (files w) (trace w) (staging_path dir name))) /\
    (res = None ->
       exists body,
         env_Get env (files_of_Create (files w) (staging_path dir name))
                 (trace w ++ [EvCreate (staging_path dir name) None]) url
           = inr body /\
         written_data evs = body_bytes body /\
         body_error body = None /\
         Total (counter w') = (len (body_bytes body) mod uint64_mod)%Z).
Proof.
  intros Hname. unfold DownloadFile.
  set (tmp := staging_path dir name). set (fin := final_path dir name).
  unfold bind at 1. unfold lift. rewrite Hname. fold tmp fin.
  unfold bind at 1. rewrite os_Create_run.
  destruct (env_Create env (files w) (trace w) tmp) as [e|] eqn:Hcreate.
  { eexists _, _, [_]. split; [reflexivity|]. split; [reflexivity|].
    split; [reflexivity|]. split; [constructor|]. split; [by rewrite ?Hcreate|]. discriminate. }
  unfold defer at 1. unfold bind at 1. rewrite http_Get_run. cbn [files trace].
  destruct (env_Get env (files_of_Create (files w) tmp)
              (trace w ++ [EvCreate tmp None]) url) as [e|body] eqn:Hget.
  { eexists _, _, [_; _; _]. split; [reflexivity|]. cbn [trace files].
    split; [by rewrite <- !app_assoc|]. split; [reflexivity|].
    split; [constructor|]. split; [by rewrite ?Hcreate|]. discriminate. }
  cbn [counter stdout]. unfold defer at 1. unfold bind at 1.
  unfold set_counter at 1. cbn [files counter stdout trace]. unfold bind at 1.
  match goal with
  | |- context [io_Copy_tee _ _ _ _ _ ?W] =>
      destruct (io_Copy_tee_spec env tmp body 0%Z W)
        as (n & cerr & w3 & wevs & Hrun & Htr & Hw & Hf & Hok);
        [simpl; split; [lia | reflexivity] | rewrite Hrun]
  end.
  cbn [files counter stdout trace] in Htr, Hf, Hok.
  destruct cerr as [e|].
  { unfold ret, Body_Close, File_Close, log. cbn [files counter stdout trace].
    exists (Some e), (mkWorld (files w3) (counter w3) (stdout w3)
                        ((trace w3 ++ [EvBodyClose url]) ++ [EvClose tmp])),
      ([EvCreate tmp None; EvGet url None] ++ wevs ++ [EvBodyClose url; EvClose tmp]).
    split; [reflexivity|]. cbn [files trace].
    split; [rewrite Htr; by rewrite <- !app_assoc|].
    split.
    { rewrite Hf, !replay_app. reflexivity. }
    split; [by constructor|]. split; [by rewrite ?Hcreate|]. discriminate. }
  destruct (Hok eq_refl) as (Hd & Hres & Hbe & Htot). clear Hok.
  unfold bind at 1. unfold fmt_Println, print. unfold bind at 1.
  rewrite os_Rename_run. cbn [files counter stdout trace].
  assert (Htotal : Total (counter w3) = (len (body_bytes body) mod uint64_mod)%Z).
  { rewrite Htot. unfold Write_Total. simpl Total. by rewrite Z.add_0_l. }
  destruct (env_Rename env (files w3) (trace w3) tmp fin) as [e|] eqn:Hrename.
  { unfold ret, Body_Close, File_Close, log. cbn [files counter stdout trace].
    eexists (Some e), _,
      ([EvCreate tmp None; EvGet url None] ++ wevs ++
       [EvRename tmp fin (Some e); EvBodyClose url; EvClose tmp]).
    split; [reflexivity|]. cbn [files trace].
    split; [rewrite Htr; by rewrite <- !app_assoc|].
    split.
    { rewrite Hf, !replay_app. reflexivity. }
    split; [by constructor|]. split; [by rewrite ?Hcreate|]. discriminate. }
  unfold ret, Body_Close, File_Close, log. cbn [files counter stdout trace].
  eexists None, _,
    ([EvCreate tmp None; EvGet url None] ++ wevs ++
     [EvRename tmp fin None; EvBodyClose url; EvClose tmp]).
  split; [reflexivity|]. cbn [files counter trace].
  split; [rewrite Htr; by rewrite <- !app_assoc|].
  split.
  { rewrite Hf, !replay_app. reflexivity. }
  split; [by constructor|]. split; [by rewrite ?Hcreate|].
  intros _. exists body. split; [done|].
  split; [|done].
  rewrite !written_data_app. simpl. by rewrite app_nil_r.
Qed.

(** ** The derived name *)

Lemma string_app_cons (c : ascii) (s1 s2 : string) :
  String c s1 +:+ s2 = String c (s1 +:+ s2).
Proof. reflexivity. Qed.

Lemma string_app_nil_r (s : string) : s +:+ "" = s.
Proof.
  induction s as [|c s IH]; [reflexivity|].
  by rewrite string_app_cons, IH.
Qed.

Lemma string_app_assoc (s1 s2 s3 : string) :
  (s1 +:+ s2) +:+ s3 = s1 +:+ (s2 +:+ s3).
Proof.
  induction s1 as [|c s1 IH]; [reflexivity|].
  by rewrite !string_app_cons, IH.
Qed.

Lemma string_app_length (s1 s2 : string) :
  String.length (s1 +:+ s2) = (String.length s1 + String.length s2)%nat.
Proof.
  induction s1 as [|c s1 IH]; [reflexivity|].
  rewrite string_app_cons. simpl. by rewrite IH.
Qed.

Lemma split_from_no_sep sep s : forall cur,
  has_byte sep s = false -> split_from sep cur s = [cur +:+ s].
Proof.
  induction s as [|c s IH]; intros cur H; simpl in *.
  - by rewrite string_app_nil_r.
  - apply orb_false_iff in H as [Hc Hs]. rewrite Hc, IH by done.
    by rewrite string_app_assoc.
Qed.

Lemma split_from_nonempty sep s : forall cur, split_from sep cur s <> [].
Proof.
  induction s as [|c s IH]; intros cur; simpl; [done|].
  destruct (Ascii.eqb c sep); [done | apply IH].
Qed.

Lemma split_from_last sep pre seg : forall cur,
  has_byte sep seg = false ->
  last (split_from sep cur (pre +:+ String sep seg)) = Some seg.
Proof.
  induction pre as [|c pre IH]; intros cur H.
  - change ("" +:+ String sep seg) with (String sep seg). simpl.
    rewrite Ascii.eqb_refl, last_cons, split_from_no_sep by done. reflexivity.
  - rewrite string_app_cons. simpl. destruct (Ascii.eqb c sep).
    + rewrite last_cons, IH by done. reflexivity.
    + by apply IH.
Qed.

(** [strings.Split] never returns the empty slice here, so the index
    [len(segments)-1] is always in range. *)
Lemma last_segment_Split path :
  exists seg, last_segment (strings_Split path slash) = Ret seg.
Proof.
  unfold last_segment, strings_Split.
  destruct (last (split_from slash "" path)) as [seg|] eqn:E; [by exists seg|].
  apply last_None in E. by apply split_from_nonempty in E.
Qed.

(** The name is what follows the last [/] of the path, and the whole path
    when it has no [/]. *)
Lemma getFileName_segment env s u seg :
  url_Parse env s = inr u ->
  (Path u = seg \/ exists pre, Path u = pre +:+ String slash seg) ->
  has_byte slash seg = false ->
  getFileName env s = Ret seg.
Proof.
  intros Hparse Hpath Hseg. unfold getFileName. rewrite Hparse.
  unfold last_segment, strings_Split.
  destruct Hpath as [->|[pre ->]].
  - by rewrite split_from_no_sep.
  - by rewrite split_from_last.
Qed.

(** C4. When [url.Parse] accepts the locator and the path of the parsed
    URL ends in a non-empty segment [seg] (the path is [seg] itself, or a
    prefix, a [/] and [seg], with no [/] in [seg]), [getFileName] returns
    exactly [seg]. *)
Theorem getFileName_final_segment env (s : string) (u : URL) (seg : string) :
  url_Parse env s = inr u ->
  (Path u = seg \/ exists pre, Path u = pre +:+ "/" +:+ seg) ->
  has_byte slash seg = false ->
  seg <> "" ->
  getFileName env s = Ret seg.
Proof. intros Hparse Hpath Hseg _. by eapply getFileName_segment. Qed.

Lemma getFileName_final_segment_witness :
  getFileName (Sample.env Sample.NoFault []) "https://example.com/a/b/pic.jpg"
  = Ret "pic.jpg".
Proof.
  apply (getFileName_final_segment (Sample.env Sample.NoFault [])
           "https://example.com/a/b/pic.jpg"
           (mkURL "https" "" "example.com" "/a/b/pic.jpg" "" "") "pic.jpg").
  - vm_compute. reflexivity.
  - right. exists "/a/b". reflexivity.
  - vm_compute. reflexivity.
  - discriminate.
Defined.

(** C9. When [url.Parse] accepts the locator and the path of the parsed
    URL is empty or ends in [/], the derived name is the empty string, and
    the Transfer's staging file is [.tmp] in the destination directory:
    that is the file [DownloadFile] creates, and the name it would rename
    it to is the directory followed by [/]. *)
Theorem getFileName_empty env (s : string) (u : URL) :
  url_Parse env s = inr u ->
  (Path u = "" \/ exists pre, Path u = pre +:+ "/") ->
  getFileName env s = Ret "" /\
  forall dir w,
    staging_path dir "" = dir +:+ "/.tmp" /\
    exists res w' evs,
      DownloadFile env s dir w = (Ret res, w') /\
      trace w' = trace w ++ evs /\
      Transfer_log s (dir +:+ "/.tmp") (dir +:+ "/") evs res.
Proof.
  intros Hparse Hpath.
  assert (Hname : getFileName env s = Ret "") by by eapply getFileName_segment.
  split; [done|]. intros dir w.
  assert (Hst : staging_path dir "" = dir +:+ "/.tmp") by reflexivity.
  split; [done|].
  destruct (DownloadFile_spec env s dir w "" Hname)
    as (res & w' & evs & Hrun & Htr & _ & Hlog & _).
  rewrite Hst in Hlog. by exists res, w', evs.
Qed.

Lemma getFileName_empty_witness :
  getFileName (Sample.env Sample.NoFault []) "https://example.com/a/b/" = Ret "" /\
  getFileName (Sample.env Sample.NoFault []) "https://example.com" = Ret "".
Proof.
  split.
  - apply (getFileName_empty (Sample.env Sample.NoFault [])
             "https://example.com/a/b/"
             (mkURL "https" "" "example.com" "/a/b/" "" "")).
    + vm_compute. reflexivity.
    + right. exists "/a/b". reflexivity.
  - apply (getFileName_empty (Sample.env Sample.NoFault [])
             "https://example.com"
             (mkURL "https" "" "example.com" "" "" "")).
    + vm_compute. reflexivity.
    + left. reflexivity.
Defined.

(** The callback on a locator [url.Parse] rejects. *)
Lemma on_img_parse_error env dir s e w :
  url_Parse env s = inl e ->
  on_img env dir s w =
  (Panic e,
   mkWorld (files w) (counter w)
           (stdout w ++ [String.concat " " ["image src: "; s] +:+ LF]) (trace w)).
Proof.
  intros Hparse. unfold on_img, DownloadFile, getFileName. rewrite Hparse.
  reflexivity.
Qed.

Lemma for_each_first_panics {A} (f : A -> M unit) x l e w w' :
  f x w = (Panic e, w') -> for_each f (x :: l) w = (Panic e, w').
Proof. intros H. simpl. unfold bind. by rewrite H. Qed.

Lemma main_run env prog page dir w :
  main env [prog; page; dir] w =
  let w3 := world_before_Visit env dir w in
  match for_each (on_img env dir) (env_Visit env (files w3) (trace w3) page)
                 (world_at_Visit page w3) with
  | (Ret _, w5) =>
      (Ret tt,
       mkWorld (files w5) (counter w5)
               (stdout w5 ++ [String.concat " " ["Grabbing completed!"] +:+ LF])
               (trace w5))
  | (Panic e, w5) => (Panic e, w5)
  | (Exit c, w5) => (Exit c, w5)
  end.
Proof.
  unfold main, world_before_Visit, world_at_Visit.
  change (negb (len [prog; page; dir] =? 3)%Z) with false.
  change (default "" ([prog; page; dir] !! 1%nat)) with page.
  change (default "" ([prog; page; dir] !! 2%nat)) with dir.
  unfold fmt_Println, os_Stat, os_MkdirAll, colly_Visit. unfold_monad.
  destruct (os_IsNotExist (env_Stat env (files w) (trace w) dir)); unfold_monad;
    match goal with
    | |- context [for_each ?f ?l ?W] => destruct (for_each f l W) as [[[]|?|?] ?]
    end; reflexivity.
Qed.

(** [main] run with another number of arguments: the usage line, exit
    status 1, and nothing else. *)
Lemma main_usage env Args w :
  len Args <> 3%Z ->
  main env Args w =
  (Exit 1,
   mkWorld (files w) (counter w)
           (stdout w ++ [String.concat " " ["usage: download url directory"] +:+ LF])
           (trace w)).
Proof.
  intros H. unfold main. apply Z.eqb_neq in H. rewrite H. reflexivity.
Qed.

(** C6, as the code has it.  On every locator that [url.Parse] rejects
    with the error [e], [getFileName] does not return: it panics with [e].
    The panic goes through [DownloadFile], which has touched nothing yet,
    and through the callback of [main]; when the page's first image has
    such a locator, [main] ends in that panic. *)
Theorem getFileName_parse_error_panics env (s : string) (e : error) :
  url_Parse env s = inl e ->
  getFileName env s = Panic e /\
  (forall dir w, DownloadFile env s dir w = (Panic e, w)) /\
  (forall prog page dir rest w,
      (forall f t, env_Visit env f t page = s :: rest) ->
      exists w', main env [prog; page; dir] w = (Panic e, w') /\
                 files w' = files w).
Proof.
  intros Hparse. split; [|split].
  - unfold getFileName. by rewrite Hparse.
  - intros dir w. unfold DownloadFile, getFileName. by rewrite Hparse.
  - intros prog page dir rest w Hvisit.
    rewrite main_run. cbv zeta. rewrite Hvisit.
    erewrite for_each_first_panics; [|by apply on_img_parse_error].
    eexists. split; reflexivity.
Qed.

Lemma getFileName_parse_error_panics_witness :
  getFileName (Sample.env Sample.NoFault []) ":"
  = Panic (UrlError "parse" ":" "missing protocol scheme").
Proof.
  apply (getFileName_parse_error_panics (Sample.env Sample.NoFault []) ":"
           (UrlError "parse" ":" "missing protocol scheme")).
  vm_compute. reflexivity.
Defined.

(** C6, as it is worded, fails.  [url.Parse(":")] is an error, and
    [DownloadFile], the caller of the name derivation, gets no error
    result to handle: on [":"] it does not return at all, whatever the
    directory and the world. *)
Lemma parse_error_is_not_returned :
  url_Parse (Sample.env Sample.NoFault []) ":"
    = inl (UrlError "parse" ":" "missing protocol scheme") /\
  ~ (exists r, getFileName (Sample.env Sample.NoFault []) ":" = Ret r) /\
  forall dir w r w',
    DownloadFile (Sample.env Sample.NoFault []) ":" dir w <> (Ret r, w').
Proof.
  split; [vm_compute; reflexivity|]. split.
  - intros [r Hr]. vm_compute in Hr. discriminate.
  - intros dir w r w' H.
    assert (Hp : url_Parse (Sample.env Sample.NoFault []) ":"
                 = inl (UrlError "parse" ":" "missing protocol scheme"))
      by (vm_compute; reflexivity).
    unfold DownloadFile, getFileName in H. rewrite Hp in H.
    cbv [bind lift] in H. discriminate.
Qed.

(** ** The final name and the staging file *)

Lemma staging_ne_final dir name : staging_path dir name <> final_path dir name.
Proof.
  unfold staging_path, final_path. intros H.
  apply (f_equal String.length) in H.
  rewrite !string_app_length in H. simpl in H. lia.
Qed.

Lemma apply_event_leaves path e f :
  leaves path e -> apply_event f e !! path = f !! path.
Proof.
  destruct e as [| | |p [?|]| |p d r|old new [?|]| |]; simpl; try done.
  - intros Hne. unfold files_of_Create. by rewrite lookup_insert_ne.
  - intros Hne. unfold files_of_Write. by rewrite lookup_insert_ne.
  - intros [Ho Hn]. unfold files_of_Rename. destruct (f !! old); [|done].
    rewrite lookup_insert_ne by done. by rewrite lookup_delete_ne.
Qed.

Lemma replay_leaves path evs : forall f,
  Forall (leaves path) evs -> replay f evs !! path = f !! path.
Proof.
  induction evs as [|e evs IH]; intros f H; [done|].
  inversion H as [|? ? He Hevs]; subst. unfold replay. simpl.
  fold (replay (apply_event f e) evs). rewrite IH by done.
  by apply apply_event_leaves.
Qed.

Lemma writes_to_leaves tmp path e :
  tmp <> path -> writes_to tmp e -> leaves path e.
Proof. intros Hne (d & r & ->). exact Hne. Qed.

Lemma replay_writes tmp wevs : forall f c,
  Forall (writes_to tmp) wevs ->
  f !! tmp = Some c ->
  replay f wevs !! tmp = Some (c ++ written_data wevs).
Proof.
  induction wevs as [|e wevs IH]; intros f c H Hc.
  - simpl. by rewrite app_nil_r.
  - inversion H as [|? ? (d & r & ->) Hw]; subst. unfold replay. simpl.
    fold (replay (files_of_Write f tmp d) wevs).
    rewrite (IH _ (c ++ d)); [by rewrite app_assoc | done |].
    unfold files_of_Write. rewrite Hc. simpl. by rewrite lookup_insert_eq.
Qed.

(** The staging file while and after the bytes are copied: it holds the
    bytes written, and nothing else changed but the staging file. *)
Lemma replay_copy tmp url wevs f :
  Forall (writes_to tmp) wevs ->
  replay f ([EvCreate tmp None; EvGet url None] ++ wevs) !! tmp
    = Some (written_data wevs) /\
  forall path, path <> tmp ->
    replay f ([EvCreate tmp None; EvGet url None] ++ wevs) !! path = f !! path.
Proof.
  intros Hw. rewrite replay_app. split.
  - rewrite (replay_writes tmp wevs _ []); [done | done |].
    simpl. unfold files_of_Create. by rewrite lookup_insert_eq.
  - intros path Hne. rewrite replay_leaves.
    + simpl. unfold files_of_Create. by rewrite lookup_insert_ne.
    + eapply Forall_impl; [exact Hw|]. intros e He.
      by eapply writes_to_leaves.
Qed.

Lemma files_of_Rename_new f old new c :
  f !! old = Some c -> files_of_Rename f old new !! new = Some c.
Proof. intros H. unfold files_of_Rename. rewrite H. apply lookup_insert_eq. Qed.

Lemma files_of_Rename_old f old new c :
  old <> new -> f !! old = Some c -> files_of_Rename f old new !! old = None.
Proof.
  intros Hne H. unfold files_of_Rename. rewrite H.
  rewrite lookup_insert_ne by done. apply lookup_delete_eq.
Qed.

Lemma writes_not_rename tmp wevs :
  Forall (writes_to tmp) wevs -> List.filter is_rename wevs = [].
Proof.
  induction 1 as [|e wevs (d & r & ->) _ IH]; [done|]. simpl. exact IH.
Qed.

Lemma Transfer_log_failed_leaves url tmp fin evs e :
  tmp <> fin ->
  Transfer_log url tmp fin evs (Some e) -> Forall (leaves fin) evs.
Proof.
  intros Hne Hlog. inversion Hlog as [| |wevs ? Hw|wevs ? Hw _|]; subst.
  - by repeat constructor.
  - by repeat constructor.
  - repeat (constructor; [done|]). apply Forall_app. split.
    + eapply Forall_impl; [exact Hw|]. intros ev. by apply writes_to_leaves.
    + by repeat constructor.
  - repeat (constructor; [done|]). apply Forall_app. split.
    + eapply Forall_impl; [exact Hw|]. intros ev. by apply writes_to_leaves.
    + by repeat constructor.
Qed.

Lemma Transfer_log_writes url tmp fin evs res :
  Transfer_log url tmp fin evs res ->
  forall p d r, EvWrite p d r ∈ evs -> p = tmp.
Proof.
  assert (Hin : forall wevs p d r,
             Forall (writes_to tmp) wevs -> EvWrite p d r ∈ wevs -> p = tmp).
  { intros wevs p d r Hw Hel. rewrite Forall_forall in Hw.
    destruct (Hw _ Hel) as (d' & r' & E). by inversion E. }
  intros Hlog p d r Hel.
  inversion Hlog as [| |wevs ? Hw|wevs ? Hw _|wevs Hw _]; subst;
    repeat (apply elem_of_cons in Hel as [Hel|Hel]; [discriminate|]);
    try (apply elem_of_app in Hel as [Hel|Hel]; [by eapply Hin|]);
    repeat (apply elem_of_cons in Hel as [Hel|Hel]; [discriminate|]);
    by apply elem_of_nil in Hel.
Qed.

Lemma Transfer_log_renames url tmp fin evs res :
  Transfer_log url tmp fin evs res ->
  (length (List.filter is_rename evs) <= 1)%nat.
Proof.
  intros Hlog.
  inversion Hlog as [| |wevs ? Hw|wevs ? Hw _|wevs Hw _]; subst; simpl;
    try lia; rewrite List.filter_app, (writes_not_rename tmp wevs Hw); simpl; lia.
Qed.

(** C1. [DownloadFile] writes the incoming bytes to the staging file only
    and renames at most once.  Replaying any initial part of the calls it
    makes, the final name holds what it held before the Transfer (nothing,
    or the earlier file, unchanged), unless that part contains the
    successful rename: then [DownloadFile] returns nil, the stream was read
    to [io.EOF] without an error, and the final name holds the bytes of the
    body, all of them. *)
Theorem final_name_absent_or_complete env (url dir : string) (w : World)
  (name : string) :
  getFileName env url = Ret name ->
  exists res w' evs,
    DownloadFile env url dir w = (Ret res, w') /\
    trace w' = trace w ++ evs /\
    files w' = replay (files w) evs /\
    (forall p d r, EvWrite p d r ∈ evs -> p = staging_path dir name) /\
    (length (List.filter is_rename evs) <= 1)%nat /\
    (forall pre post, evs = pre ++ post ->
       replay (files w) pre !! final_path dir name
         = files w !! final_path dir name
       \/ (res = None /\
           EvRename (staging_path dir name) (final_path dir name) None ∈ pre /\
           exists body,
             env_Get env (files_of_Create (files w) (staging_path dir name))
                     (trace w ++ [EvCreate (staging_path dir name) None]) url
               = inr body /\
             body_error body = None /\
             replay (files w) pre !! final_path dir name
               = Some (body_bytes body))).
Proof.
  intros Hname.
  destruct (DownloadFile_spec env url dir w name Hname)
    as (res & w' & evs & Hrun & Htr & Hf & Hlog & _ & Hok).
  pose proof (staging_ne_final dir name) as Hne.
  set (tmp := staging_path dir name) in *. set (fin := final_path dir name) in *.
  exists res, w', evs. repeat (split; [done|]).
  split; [by eapply Transfer_log_writes|].
  split; [by eapply Transfer_log_renames|].
  destruct res as [e|].
  { intros pre post Hsplit. left. apply replay_leaves.
    pose proof (Transfer_log_failed_leaves _ _ _ _ _ Hne Hlog) as Hall.
    rewrite Hsplit in Hall. by apply Forall_app in Hall as [Hpre _]. }
  destruct (Hok eq_refl) as (body & Hget & Hdata & Hbe & _).
  inversion Hlog as [| | | |wevs Hw Hres Hevs]; subst evs.
  assert (Hd : written_data wevs = body_bytes body).
  { rewrite <- Hdata, !written_data_app. simpl. by rewrite app_nil_r. }
  intros pre post Hsplit.
  rewrite app_assoc in Hsplit.
  apply app_eq_inv in Hsplit as [(k & Hpre & Hpost)|(k & Hpre & Hpost)].
  - (* the part replayed stops before the rename *)
    left. apply replay_leaves.
    assert (Hall : Forall (leaves fin) (([EvCreate tmp None; EvGet url None]) ++ wevs)).
    { repeat (constructor; [done|]).
      eapply Forall_impl; [exact Hw|]. intros ev. by apply writes_to_leaves. }
    rewrite Hpre in Hall. by apply Forall_app in Hall as [Hall _].
  - destruct k as [|ev k].
    + left. rewrite app_nil_r in Hpre. subst pre. apply replay_leaves.
      repeat (constructor; [done|]).
      eapply Forall_impl; [exact Hw|]. intros ev. by apply writes_to_leaves.
    + (* the part replayed contains the rename *)
      inversion Hpost as [[Hev Hk]]. subst ev. right. split; [done|].
      split; [rewrite Hpre; apply elem_of_app; right; by left|].
      exists body. repeat (split; [done|]).
      rewrite Hpre, replay_app.
      change (replay ?f (EvRename tmp fin None :: k))
        with (replay (files_of_Rename f tmp fin) k).
      rewrite replay_leaves.
      * rewrite <- Hd. apply files_of_Rename_new. by apply replay_copy.
      * assert (Hall : Forall (leaves fin) [EvBodyClose url; EvClose tmp])
          by by repeat constructor.
        rewrite Hk in Hall. by apply Forall_app in Hall as [Hall _].
Qed.

Lemma final_name_absent_or_complete_witness :
  exists res w' evs,
    DownloadFile (Sample.env Sample.NoFault []) "https://x.test/img/42.png"
                 "/tmp/out" Sample.world1 = (Ret res, w') /\
    trace w' = trace Sample.world1 ++ evs /\
    forall p d r, EvWrite p d r ∈ evs -> p = "/tmp/out/42.png.tmp".
Proof.
  destruct (final_name_absent_or_complete (Sample.env Sample.NoFault [])
              "https://x.test/img/42.png" "/tmp/out" Sample.world1 "42.png")
    as (res & w' & evs & Hrun & Htr & _ & Hwr & _).
  - vm_compute. reflexivity.
  - exists res, w', evs. split; [exact Hrun|]. split; [exact Htr|]. exact Hwr.
Defined.

(** The run on [https://x.test/img/42.png] into [/tmp/out]: the staging
    file is created, receives the two chunks, and is renamed. *)
Example transfer_42_png :
  let r := DownloadFile (Sample.env Sample.NoFault []) "https://x.test/img/42.png"
             "/tmp/out" Sample.world0 in
  fst r = Ret None /\
  trace (snd r) =
    [EvCreate "/tmp/out/42.png.tmp" None;
     EvGet "https://x.test/img/42.png" None;
     EvWrite "/tmp/out/42.png.tmp" [Sample.b 1; Sample.b 2; Sample.b 3] None;
     EvWrite "/tmp/out/42.png.tmp" [Sample.b 4; Sample.b 5] None;
     EvRename "/tmp/out/42.png.tmp" "/tmp/out/42.png" None;
     EvBodyClose "https://x.test/img/42.png";
     EvClose "/tmp/out/42.png.tmp"] /\
  files (snd r) !! "/tmp/out/42.png"
    = Some [Sample.b 1; Sample.b 2; Sample.b 3; Sample.b 4; Sample.b 5] /\
  files (snd r) !! "/tmp/out/42.png.tmp" = None.
Proof. vm_compute. repeat split. Qed.

(** C2. When [DownloadFile] returns nil, the name was derived, the request
    returned a body, the body was read to [io.EOF] without an error, and
    the counter's [Total] is the number of bytes of the body in [uint64]:
    exactly that number whenever it is below 2^64. *)
Theorem Total_is_body_length env (url dir : string) (w w' : World) :
  DownloadFile env url dir w = (Ret None, w') ->
  exists name body,
    getFileName env url = Ret name /\
    env_Get env (files_of_Create (files w) (staging_path dir name))
            (trace w ++ [EvCreate (staging_path dir name) None]) url
      = inr body /\
    body_error body = None /\
    Total (counter w') = (len (body_bytes body) mod 2 ^ 64)%Z /\
    ((len (body_bytes body) < 2 ^ 64)%Z ->
     Total (counter w') = len (body_bytes body)).
Proof.
  intros Hrun. destruct (getFileName env url) as [name|e|c] eqn:Hname.
  - destruct (DownloadFile_spec env url dir w name Hname)
      as (res & w1 & evs & Hrun1 & _ & _ & _ & _ & Hok).
    rewrite Hrun in Hrun1. inversion Hrun1; subst res w1.
    destruct (Hok eq_refl) as (body & Hget & _ & Hbe & Htot).
    exists name, body. split; [reflexivity|]. split; [exact Hget|].
    split; [exact Hbe|]. split; [exact Htot|].
    intros Hlt. rewrite Htot. apply Z.mod_small.
    split; [apply len_nonneg | exact Hlt].
  - unfold DownloadFile in Hrun. rewrite Hname in Hrun. discriminate.
  - unfold DownloadFile in Hrun. rewrite Hname in Hrun. discriminate.
Qed.

Lemma Total_is_body_length_witness :
  let w' := snd (DownloadFile (Sample.env Sample.NoFault [])
                   "https://x.test/img/42.png" "/tmp/out" Sample.world0) in
  Total (counter w') = len (body_bytes Sample.page_body).
Proof.
  intros w'.
  destruct (Total_is_body_length (Sample.env Sample.NoFault [])
              "https://x.test/img/42.png" "/tmp/out" Sample.world0 w')
    as (name & body & Hname & Hget & _ & _ & Hexact).
  - vm_compute. reflexivity.
  - vm_compute in Hname. injection Hname as <-.
    vm_compute in Hget. injection Hget as <-.
    apply Hexact. vm_compute. reflexivity.
Defined.

Lemma on_img_run env dir src w :
  on_img env dir src w =
  match DownloadFile env src dir (world_in_callback src w) with
  | (Ret (Some e), w') => (Panic e, w')
  | (Ret None, w') => (Ret tt, w')
  | (Panic e, w') => (Panic e, w')
  | (Exit c, w') => (Exit c, w')
  end.
Proof.
  unfold on_img, fmt_Println, print, world_in_callback. unfold bind at 1.
  unfold bind at 1.
  match goal with
  | |- context [DownloadFile env src dir ?W] =>
      destruct (DownloadFile env src dir W) as [[[e|]|e|c] w']
  end; reflexivity.
Qed.

(** The staging file after a Transfer that failed. *)
Lemma Transfer_log_failed_staging url tmp fin evs e f :
  Transfer_log url tmp fin evs (Some e) ->
  (head evs = Some (EvCreate tmp None) ->
   replay f evs !! tmp = Some (written_data evs)) /\
  (forall e', head evs = Some (EvCreate tmp (Some e')) ->
   e' = e /\ replay f evs = f /\ written_data evs = []).
Proof.
  intros Hlog. inversion Hlog as [| |wevs ? Hw|wevs ? Hw _|]; subst.
  - split; [discriminate|]. intros e' [= ->]. done.
  - split; [|discriminate]. intros _. simpl.
    unfold files_of_Create. by rewrite lookup_insert_eq.
  - split; [|discriminate]. intros _.
    rewrite app_assoc, replay_app, written_data_app. simpl.
    rewrite app_nil_r. apply (replay_writes tmp wevs _ []); [done|].
    unfold files_of_Create. by rewrite lookup_insert_eq.
  - split; [|discriminate]. intros _.
    rewrite app_assoc, replay_app, written_data_app. simpl.
    rewrite app_nil_r. apply (replay_writes tmp wevs _ []); [done|].
    unfold files_of_Create. by rewrite lookup_insert_eq.
Qed.

(** The staging file after a Transfer that committed. *)
Lemma Transfer_log_committed_staging url tmp fin evs f :
  tmp <> fin ->
  Transfer_log url tmp fin evs None ->
  replay f evs !! tmp = None /\
  replay f evs !! fin = Some (written_data evs).
Proof.
  intros Hne Hlog. inversion Hlog as [| | | |wevs Hw _]; subst.
  rewrite app_assoc, replay_app, written_data_app. simpl.
  rewrite app_nil_r.
  assert (Htmp : replay (files_of_Create f tmp) wevs !! tmp
                 = Some (written_data wevs)).
  { apply (replay_writes tmp wevs _ []); [done|].
    unfold files_of_Create. by rewrite lookup_insert_eq. }
  split.
  - by eapply files_of_Rename_old.
  - by apply files_of_Rename_new.
Qed.

Lemma Transfer_log_ok url tmp fin evs :
  Transfer_log url tmp fin evs None ->
  Forall (fun ev => event_result ev = None) evs.
Proof.
  intros Hlog. inversion Hlog as [| | | |wevs _ Hres]; subst.
  repeat (constructor; [done|]). apply Forall_app. split; [done|].
  by repeat constructor.
Qed.

(** C3, as the code has it.  [DownloadFile] returns an error whenever a
    call it makes fails ([os.Create], [http.Get], a write, [os.Rename]) or
    the stream ends in an error other than [io.EOF].  When it returns an
    error, the final name holds what it held before; if the staging file
    was created, it holds exactly the bytes written before the failure; if
    [os.Create] failed, no file has changed, whatever the staging name
    held.  In [main] the error becomes a panic with that error, where a
    wrong number of arguments is an exit with status 1 and no call made. *)
Theorem failure_returns_error env (url dir : string) (w : World) (name : string) :
  getFileName env url = Ret name ->
  exists res w' evs,
    DownloadFile env url dir w = (Ret res, w') /\
    trace w' = trace w ++ evs /\
    ((exists ev, ev ∈ evs /\ event_result ev <> None) \/
     (exists body,
        env_Get env (files_of_Create (files w) (staging_path dir name))
                (trace w ++ [EvCreate (staging_path dir name) None]) url
          = inr body /\ body_error body <> None) ->
     exists e, res = Some e) /\
    (forall e, res = Some e ->
       files w' !! final_path dir name = files w !! final_path dir name /\
       (env_Create env (files w) (trace w) (staging_path dir name) = None ->
        files w' !! staging_path dir name = Some (written_data evs)) /\
       (env_Create env (files w) (trace w) (staging_path dir name) <> None ->
        files w' = files w /\ written_data evs = []) /\
       (forall prog page rest w0,
          w = world_in_callback url
                (world_at_Visit page (world_before_Visit env dir w0)) ->
          env_Visit env (files (world_before_Visit env dir w0))
                    (trace (world_before_Visit env dir w0)) page = url :: rest ->
          main env [prog; page; dir] w0 = (Panic e, w'))) /\
    (forall Args w0,
       len Args <> 3%Z ->
       exists w1, main env Args w0 = (Exit 1, w1) /\
                  files w1 = files w0 /\ trace w1 = trace w0).
Proof.
  intros Hname.
  destruct (DownloadFile_spec env url dir w name Hname)
    as (res & w' & evs & Hrun & Htr & Hf & Hlog & Hhd & Hok).
  pose proof (staging_ne_final dir name) as Hne.
  exists res, w', evs. split; [done|]. split; [done|]. split; [|split].
  - (* a failure is returned *)
    intros Hfail. destruct res as [e|]; [by exists e|]. exfalso.
    destruct Hfail as [(ev & Hel & Hev)|(body & Hget & Hbe)].
    + apply Transfer_log_ok in Hlog. rewrite Forall_forall in Hlog.
      by apply Hev, Hlog.
    + destruct (Hok eq_refl) as (body' & Hget' & _ & Hbe' & _).
      rewrite Hget in Hget'. by inversion Hget'; subst.
  - intros e ->.
    destruct (Transfer_log_failed_staging _ _ _ _ _ (files w) Hlog) as [Hst Hcf].
    split; [|split; [|split]].
    + rewrite Hf. apply replay_leaves. by eapply Transfer_log_failed_leaves.
    + intros Hc. rewrite Hf. apply Hst. by rewrite Hhd, Hc.
    + intros Hc.
      destruct (env_Create env (files w) (trace w) (staging_path dir name))
        as [e'|]; [|done].
      destruct (Hcf e' Hhd) as (_ & Hsame & Hnone). by rewrite Hf.
    + intros prog page rest w0 Hw Hvisit. rewrite main_run. cbv zeta.
      rewrite Hvisit. erewrite for_each_first_panics; [reflexivity|].
      rewrite on_img_run, <- Hw, Hrun. reflexivity.
  - intros Args w0 HArgs. rewrite main_usage by done.
    eexists. split; [reflexivity|]. by split.
Qed.

Lemma failure_returns_error_witness :
  exists w' evs,
    DownloadFile (Sample.env Sample.FailRead []) "https://x.test/img/42.png"
                 "/tmp/out" Sample.world1
      = (Ret (Some (NetError "connection reset by peer")), w') /\
    trace w' = trace Sample.world1 ++ evs /\
    files w' !! "/tmp/out/42.png" = files Sample.world1 !! "/tmp/out/42.png" /\
    files w' !! "/tmp/out/42.png.tmp" = Some (written_data evs).
Proof.
  destruct (failure_returns_error (Sample.env Sample.FailRead [])
              "https://x.test/img/42.png" "/tmp/out" Sample.world1 "42.png")
    as (res & w' & evs & Hrun & Htr & _ & Herr & _).
  - vm_compute. reflexivity.
  - assert (Hres : res = Some (NetError "connection reset by peer")).
    { vm_compute in Hrun. by injection Hrun as <- _. }
    destruct (Herr _ Hres) as (Hfin & Hst & _).
    exists w', evs. subst res. split; [exact Hrun|]. split; [exact Htr|].
    split; [exact Hfin|]. apply Hst. reflexivity.
Defined.

(** C3, as it is worded, fails at a failure to create the staging file.
    With a staging file left by an earlier run and [os.Create] failing,
    [DownloadFile] returns the error having written nothing, and the
    staging file still holds the earlier run's bytes. *)
Lemma staging_file_stale_after_create_failure :
  exists e w',
    DownloadFile (Sample.env Sample.FailCreate []) "https://x.test/img/42.png"
                 "/tmp/out" Sample.world1 = (Ret (Some e), w') /\
    written_data (trace w') = [] /\
    files w' !! "/tmp/out/42.png.tmp" = Some [Sample.b 7; Sample.b 7] /\
    files w' !! "/tmp/out/42.png.tmp" <> Some (written_data (trace w')).
Proof.
  eexists _, _. split; [vm_compute; reflexivity|].
  split; [reflexivity|]. split; [vm_compute; reflexivity|].
  vm_compute. discriminate.
Qed.

(** C5, as the code has it.  After [DownloadFile] returns nil the staging
    file is gone: the rename took it away.  After it returns an error, a
    staging file that was created is still there, holding the bytes
    written; when [os.Create] failed, no file has changed. *)
Theorem staging_file_after_return env (url dir : string) (w : World)
  (name : string) :
  getFileName env url = Ret name ->
  exists res w' evs,
    DownloadFile env url dir w = (Ret res, w') /\
    trace w' = trace w ++ evs /\
    (res = None ->
       files w' !! staging_path dir name = None /\
       files w' !! final_path dir name = Some (written_data evs)) /\
    (forall e, res = Some e ->
       env_Create env (files w) (trace w) (staging_path dir name) = None ->
       files w' !! staging_path dir name = Some (written_data evs)) /\
    (forall e,
       env_Create env (files w) (trace w) (staging_path dir name) = Some e ->
       res = Some e /\ files w' = files w).
Proof.
  intros Hname.
  destruct (DownloadFile_spec env url dir w name Hname)
    as (res & w' & evs & Hrun & Htr & Hf & Hlog & Hhd & Hok).
  pose proof (staging_ne_final dir name) as Hne.
  exists res, w', evs. split; [done|]. split; [done|]. split; [|split].
  - intros ->. rewrite Hf. by eapply Transfer_log_committed_staging.
  - intros e -> Hc. rewrite Hf.
    destruct (Transfer_log_failed_staging _ _ _ _ _ (files w) Hlog) as [Hst _].
    apply Hst. by rewrite Hhd, Hc.
  - intros e Hc. rewrite Hc in Hhd. destruct res as [e'|].
    + destruct (Transfer_log_failed_staging _ _ _ _ _ (files w) Hlog) as [_ Hcf].
      destruct (Hcf e Hhd) as (-> & Hsame & _). by rewrite Hf.
    + inversion Hlog; subst; discriminate.
Qed.

Lemma staging_file_after_return_witness :
  exists w' evs,
    DownloadFile (Sample.env Sample.NoFault []) "https://x.test/img/42.png"
                 "/tmp/out" Sample.world1 = (Ret None, w') /\
    trace w' = trace Sample.world1 ++ evs /\
    files w' !! "/tmp/out/42.png.tmp" = None /\
    files w' !! "/tmp/out/42.png" = Some (written_data evs).
Proof.
  destruct (staging_file_after_return (Sample.env Sample.NoFault [])
              "https://x.test/img/42.png" "/tmp/out" Sample.world1 "42.png")
    as (res & w' & evs & Hrun & Htr & Hok & _).
  - vm_compute. reflexivity.
  - assert (Hres : res = None).
    { vm_compute in Hrun. by injection Hrun as <- _. }
    destruct (Hok Hres) as [Hst Hfin]. subst res.
    exists w', evs. split; [exact Hrun|]. split; [exact Htr|].
    split; [exact Hst | exact Hfin].
Defined.

(** C5, as it is worded, fails on an error path.  When [http.Get] fails,
    [DownloadFile] returns the error and the staging file it created,
    which was not there before, is on disk. *)
Lemma staging_file_left_on_error :
  exists e w',
    DownloadFile (Sample.env Sample.FailGet []) "https://x.test/img/42.png"
                 "/tmp/out" Sample.world0 = (Ret (Some e), w') /\
    files Sample.world0 !! "/tmp/out/42.png.tmp" = None /\
    files w' !! "/tmp/out/42.png.tmp" = Some [].
Proof.
  eexists _, _. split; [vm_compute; reflexivity|].
  split; vm_compute; reflexivity.
Qed.

(** ** [main] and the destination directory *)

(** The callback only adds to the log of calls; when the name of its
    locator is derived, the first call it adds is the [os.Create] of the
    staging file. *)
Lemma on_img_trace env dir src w :
  exists evs,
    trace (snd (on_img env dir src w)) = trace w ++ evs /\
    forall name, getFileName env src = Ret name ->
      exists c, head evs = Some (EvCreate (staging_path dir name) c).
Proof.
  rewrite on_img_run.
  destruct (getFileName env src) as [name|e|c] eqn:Hname.
  - destruct (DownloadFile_spec env src dir (world_in_callback src w) name Hname)
      as (res & w' & evs & Hrun & Htr & _ & _ & Hhd & _).
    rewrite Hrun. exists evs. split.
    + by destruct res.
    + intros name' [= <-]. eauto.
  - exists []. split; [|discriminate].
    unfold DownloadFile. rewrite Hname. simpl. by rewrite app_nil_r.
  - exists []. split; [|discriminate].
    unfold DownloadFile. rewrite Hname. simpl. by rewrite app_nil_r.
Qed.

Lemma for_each_on_img_trace env dir imgs : forall w,
  exists evs,
    trace (snd (for_each (on_img env dir) imgs w)) = trace w ++ evs /\
    forall src rest name,
      imgs = src :: rest -> getFileName env src = Ret name ->
      exists c, head evs = Some (EvCreate (staging_path dir name) c).
Proof.
  induction imgs as [|src imgs IH]; intros w.
  - exists []. split; [simpl; by rewrite app_nil_r | discriminate].
  - destruct (on_img_trace env dir src w) as (evs1 & Htr1 & Hhd1).
    cbn [for_each]. unfold bind.
    destruct (on_img env dir src w) as [[[]|e|c] w1] eqn:Hrun; cbn [snd] in Htr1.
    + destruct (IH w1) as (evs2 & Htr2 & _).
      exists (evs1 ++ evs2). split.
      * by rewrite Htr2, Htr1, app_assoc.
      * intros src' rest name [= <- <-] Hname.
        destruct (Hhd1 name Hname) as [c Hc]. exists c.
        destruct evs1; [discriminate | exact Hc].
    + exists evs1. split; [done|].
      intros src' rest name [= <- <-] Hname. by apply Hhd1.
    + exists evs1. split; [done|].
      intros src' rest name [= <- <-] Hname. by apply Hhd1.
Qed.

(** C10. Run with two arguments on a directory that [os.Stat] reports as
    not existing, [main] calls [os.MkdirAll] on it with mode 0700, and
    whatever that call returns, an error included, goes on: it visits the
    page and runs the callback, hence [DownloadFile], on every image
    found, the first call after the visit being the creation of the first
    image's staging file in that directory. *)
Theorem main_ignores_MkdirAll_error env (prog page dir : string) (w : World) :
  os_IsNotExist (env_Stat env (files w) (trace w) dir) = true ->
  let st := env_Stat env (files w) (trace w) dir in
  let r := env_MkdirAll env (files w) (trace w ++ [EvStat dir st]) dir 448 in
  let w3 := world_before_Visit env dir w in
  let imgs := env_Visit env (files w3) (trace w3) page in
  (448 = 7 * 8 * 8 + 0 * 8 + 0)%Z /\
  trace w3 = trace w ++ [EvStat dir st; EvMkdirAll dir 448 r] /\
  main env [prog; page; dir] w =
    match for_each (on_img env dir) imgs (world_at_Visit page w3) with
    | (Ret _, w5) =>
        (Ret tt,
         mkWorld (files w5) (counter w5)
                 (stdout w5 ++ [String.concat " " ["Grabbing completed!"] +:+ LF])
                 (trace w5))
    | (Panic e, w5) => (Panic e, w5)
    | (Exit c, w5) => (Exit c, w5)
    end /\
  exists evs,
    trace (snd (main env [prog; page; dir] w))
      = trace w ++ [EvStat dir st; EvMkdirAll dir 448 r; EvVisit page] ++ evs /\
    forall src rest name,
      imgs = src :: rest -> getFileName env src = Ret name ->
      exists c, head evs = Some (EvCreate (staging_path dir name) c).
Proof.
  intros Hst st r w3 imgs.
  assert (Htr3 : trace w3 = trace w ++ [EvStat dir st; EvMkdirAll dir 448 r]).
  { subst w3 st r. unfold world_before_Visit. cbn [trace]. rewrite Hst.
    by rewrite <- app_assoc. }
  split; [reflexivity|]. split; [exact Htr3|]. split; [apply main_run|].
  rewrite main_run. cbv zeta. fold w3. fold imgs.
  destruct (for_each_on_img_trace env dir imgs (world_at_Visit page w3))
    as (evs & Htr & Hhd).
  exists evs. split; [|exact Hhd].
  assert (Hpre : trace (world_at_Visit page w3) ++ evs
                 = trace w ++ [EvStat dir st; EvMkdirAll dir 448 r; EvVisit page] ++ evs).
  { unfold world_at_Visit. cbn [trace]. rewrite Htr3.
    by rewrite <- !app_assoc. }
  destruct (for_each (on_img env dir) imgs (world_at_Visit page w3))
    as [[[]|e|c] w5]; cbn [snd trace] in *; by rewrite Htr.
Qed.

Lemma main_ignores_MkdirAll_error_witness :
  exists w',
    main (Sample.env Sample.FailCreate ["https://x.test/img/42.png"])
         ["download"; "http://x.test/"; "/tmp/out"] Sample.world0
      = (Panic (PathError "open" "/tmp/out/42.png.tmp" EACCES), w') /\
    trace w' =
      [EvStat "/tmp/out" (Some (PathError "stat" "/tmp/out" ENOENT));
       EvMkdirAll "/tmp/out" 448 (Some (PathError "mkdir" "/tmp/out" EACCES));
       EvVisit "http://x.test/";
       EvCreate "/tmp/out/42.png.tmp"
                (Some (PathError "open" "/tmp/out/42.png.tmp" EACCES))].
Proof.
  destruct (main_ignores_MkdirAll_error
              (Sample.env Sample.FailCreate ["https://x.test/img/42.png"])
              "download" "http://x.test/" "/tmp/out" Sample.world0)
    as (_ & _ & Hmain & _).
  - vm_compute. reflexivity.
  - eexists. split; [rewrite Hmain; vm_compute; reflexivity|].
    vm_compute. reflexivity.
Defined.

(** ** More on the derived name *)

Lemma has_byte_app c s1 s2 :
  has_byte c (s1 +:+ s2) = has_byte c s1 || has_byte c s2.
Proof.
  induction s1 as [|a s1 IH]; [reflexivity|].
  rewrite string_app_cons. simpl. by rewrite IH, orb_assoc.
Qed.

Lemma split_from_no_sep_inside sep s : forall cur,
  has_byte sep cur = false ->
  Forall (fun x => has_byte sep x = false) (split_from sep cur s).
Proof.
  induction s as [|c s IH]; intros cur Hcur; simpl.
  - by constructor.
  - destruct (Ascii.eqb c sep) eqn:Hc.
    + constructor; [done|]. by apply IH.
    + apply IH. rewrite has_byte_app, Hcur. simpl. by rewrite Hc.
Qed.

Lemma split_from_last_suffix sep s : forall cur,
  exists name,
    last (split_from sep cur s) = Some name /\
    (cur +:+ s = name \/ exists pre, cur +:+ s = pre +:+ String sep name).
Proof.
  induction s as [|c s IH]; intros cur; simpl.
  - exists cur. split; [done|]. left. apply string_app_nil_r.
  - destruct (Ascii.eqb_spec c sep) as [->|Hc].
    + destruct (IH "") as (name & Hlast & Hsuf). exists name. split.
      * rewrite last_cons, Hlast. done.
      * right. destruct Hsuf as [Hs|[pre Hs]].
        -- exists cur. change ("" +:+ s) with s in Hs. by rewrite Hs.
        -- exists (cur +:+ String sep pre). change ("" +:+ s) with s in Hs.
           rewrite Hs, string_app_assoc. by rewrite string_app_cons.
    + destruct (IH (cur +:+ String c "")) as (name & Hlast & Hsuf).
      exists name. split; [done|].
      by rewrite string_app_assoc in Hsuf.
Qed.

(** [getFileName] returns on every locator [url.Parse] accepts: the
    index [len(segments)-1] is always in range.  The name it returns has
    no [/] in it and is what follows the last [/] of the parsed path, or
    the whole path when the path has no [/]. *)
Theorem getFileName_is_last_segment env (s : string) (u : URL) :
  url_Parse env s = inr u ->
  exists name,
    getFileName env s = Ret name /\
    has_byte slash name = false /\
    (Path u = name \/ exists pre, Path u = pre +:+ "/" +:+ name).
Proof.
  intros Hparse. unfold getFileName, last_segment, strings_Split.
  rewrite Hparse.
  destruct (split_from_last_suffix slash (Path u) "") as (name & Hlast & Hsuf).
  exists name. rewrite Hlast. split; [done|]. split; [|exact Hsuf].
  pose proof (split_from_no_sep_inside slash (Path u) "" eq_refl) as Hall.
  rewrite Forall_forall in Hall. apply Hall.
  rewrite last_Some in Hlast. destruct Hlast as [l' ->].
  apply elem_of_app. right. by left.
Qed.

Lemma getFileName_is_last_segment_witness :
  exists name,
    getFileName (Sample.env Sample.NoFault [])
                "https://example.com/a%2Fb.png?size=2#top" = Ret name /\
    has_byte slash name = false /\
    ("/a/b.png" = name \/ exists pre, "/a/b.png" = pre +:+ "/" +:+ name).
Proof.
  apply (getFileName_is_last_segment (Sample.env Sample.NoFault [])
           "https://example.com/a%2Fb.png?size=2#top"
           (mkURL "https" "" "example.com" "/a/b.png" "size=2" "top")).
  vm_compute. reflexivity.
Defined.

(** ** What the counter counts and what is printed *)

(** The copy through the counter once more: the bytes that reached the
    file are an initial part of the bytes counted, which are an initial
    part of the body; and a copy that ends without an error has printed
    the progress of the whole body. *)
Lemma io_Copy_tee_progress env dst body : forall written w,
  (0 <= Total (counter w) < uint64_mod)%Z ->
  exists n cerr w' wevs counted,
    io_Copy_tee env dst (WriteCounter_Write env) body written w
      = (Ret (n, cerr), w') /\
    trace w' = trace w ++ wevs /\
    written_data wevs `prefix_of` counted /\
    counted `prefix_of` body_bytes body /\
    Total (counter w') = Write_Total (Total (counter w)) counted /\
    (cerr = None ->
     stdout w' = stdout w ++ progress_of env (Total (counter w)) body).
Proof.
  induction body as [|[p er] body IH]; intros written w Hrange.
  - exists written, None, w, [], []. split; [reflexivity|].
    split; [by rewrite app_nil_r|]. split; [done|]. split; [done|].
    split; [by rewrite Write_Total_nil|]. intros _. simpl. by rewrite app_nil_r.
  - cbn [io_Copy_tee]. unfold bind at 1. rewrite teeReader_Read_counter. cbn [fst].
    unfold bind at 1. rewrite copy_step_run. cbn [progress_of body_bytes].
    destruct (0 <? len p)%Z eqn:Hp.
    + set (wt := world_after_Write env p w).
      set (data := File_Write_data env dst p wt).
      set (err := File_Write_err env dst p wt).
      set (ev := EvWrite dst data err).
      assert (Hdata : data `prefix_of` p) by apply prefix_take.
      destruct (after_write written (len p) er (len data) err) as [[n cerr]|written']
        eqn:Hstep.
      * exists n, cerr, (world_after_File_Write env dst p wt), [ev], p.
        split; [reflexivity|]. split; [reflexivity|].
        split; [subst ev; simpl; by rewrite app_nil_r|].
        split; [destruct er; [done | by apply prefix_app_r]|].
        split; [reflexivity|].
        intros ->.
        destruct (after_write_complete _ _ _ _ _ _ Hstep) as (_ & _ & Hread);
          [intros ? ?; discriminate|].
        apply after_read_ok in Hread. subst er. simpl.
        by rewrite <- app_assoc.
      * destruct (after_write_complete _ _ _ _ _ _ Hstep) as (Hlen & Herr & Hread);
          [intros ? ?; discriminate|].
        apply after_read_go in Hread. subst er.
        apply File_Write_complete in Hlen. fold data in Hlen.
        destruct (IH written' (world_after_File_Write env dst p wt))
          as (n & cerr & w' & wevs & counted & Hrun & Htr & Hwr & Hcnt & Htot & Hout).
        { simpl. apply Write_Total_range. }
        exists n, cerr, w', (ev :: wevs), (p ++ counted).
        split; [exact Hrun|].
        split; [rewrite Htr; simpl; by rewrite <- app_assoc|].
        split; [subst ev; simpl; rewrite Hlen; by apply prefix_app|].
        split; [by apply prefix_app|].
        split; [rewrite Htot; simpl; apply Write_Total_add|].
        intros Hc. rewrite (Hout Hc). simpl. by rewrite <- !app_assoc.
    + apply len_0_nil in Hp. subst p.
      destruct (after_read written er) as [[n cerr]|written'] eqn:Hstep.
      * exists n, cerr, w, [], []. split; [reflexivity|].
        split; [by rewrite app_nil_r|]. split; [done|].
        split; [apply prefix_nil|].
        split; [by rewrite Write_Total_nil|].
        intros ->. apply after_read_ok in Hstep. subst er. simpl.
        by rewrite app_nil_r.
      * apply after_read_go in Hstep. subst er.
        destruct (IH written' w Hrange)
          as (n & cerr & w' & wevs & counted & Hrun & Htr & Hwr & Hcnt & Htot & Hout).
        exists n, cerr, w', wevs, counted. repeat (split; [done|]). exact Hout.
Qed.

(** [DownloadFile] around the copy: once the staging file is created and
    the request has returned a body, the counter is what the copy left,
    the output is what the copy printed, followed by a newline when the
    copy ended without an error, and the calls made after the copy write
    no bytes. *)
Lemma DownloadFile_copy env url dir w name body :
  getFileName env url = Ret name ->
  env_Create env (files w) (trace w) (staging_path dir name) = None ->
  env_Get env (files_of_Create (files w) (staging_path dir name))
          (trace w ++ [EvCreate (staging_path dir name) None]) url = inr body ->
  exists n cerr w3 res w' tail,
    io_Copy_tee env (staging_path dir name) (WriteCounter_Write env) body 0%Z
      (mkWorld (files_of_Create (files w) (staging_path dir name))
               (mkWriteCounter 0) (stdout w)
               ((trace w ++ [EvCreate (staging_path dir name) None])
                ++ [EvGet url None]))
      = (Ret (n, cerr), w3) /\
    DownloadFile env url dir w = (Ret res, w') /\
    counter w' = counter w3 /\
    (cerr <> None -> res = cerr) /\
    stdout w' = stdout w3 ++ match cerr with
                             | Some _ => []
                             | None => [String.concat " " [] +:+ LF]
                             end /\
    trace w' = trace w3 ++ tail /\
    written_data tail = [].
Proof.
  intros Hname Hcreate Hget. unfold DownloadFile.
  set (tmp := staging_path dir name) in *. set (fin := final_path dir name).
  unfold bind at 1. unfold lift. rewrite Hname. fold tmp fin.
  unfold bind at 1. rewrite os_Create_run, Hcreate.
  unfold defer at 1. unfold bind at 1. rewrite http_Get_run. cbn [files trace].
  rewrite Hget.
  cbn [counter stdout]. unfold defer at 1. unfold bind at 1.
  unfold set_counter at 1. cbn [files counter stdout trace]. unfold bind at 1.
  match goal with
  | |- context [io_Copy_tee _ _ _ _ _ ?W] =>
      destruct (io_Copy_tee_spec env tmp body 0%Z W)
        as (n & cerr & w3 & wevs & Hrun & _);
        [simpl; split; [lia | reflexivity] | rewrite Hrun]
  end.
  exists n, cerr, w3.
  destruct cerr as [e|].
  - unfold ret, Body_Close, File_Close, log. cbn [files counter stdout trace].
    eexists (Some e), _, [EvBodyClose url; EvClose tmp].
    split; [reflexivity|]. split; [reflexivity|]. cbn [counter stdout trace].
    split; [reflexivity|]. split; [done|].
    split; [by rewrite app_nil_r|]. split; [by rewrite <- app_assoc|]. reflexivity.
  - unfold bind at 1. unfold fmt_Println, print. unfold bind at 1.
    rewrite os_Rename_run. cbn [files counter stdout trace].
    destruct (env_Rename env (files w3) (trace w3) tmp fin) as [e|];
      unfold ret, Body_Close, File_Close, log; cbn [files counter stdout trace].
    + eexists (Some e), _, [EvRename tmp fin (Some e); EvBodyClose url; EvClose tmp].
      split; [reflexivity|]. split; [reflexivity|]. cbn [counter stdout trace].
      split; [reflexivity|]. split; [done|].
      split; [reflexivity|]. split; [by rewrite <- !app_assoc|]. reflexivity.
    + eexists None, _, [EvRename tmp fin None; EvBodyClose url; EvClose tmp].
      split; [reflexivity|]. split; [reflexivity|]. cbn [counter stdout trace].
      split; [reflexivity|]. split; [done|].
      split; [reflexivity|]. split; [by rewrite <- !app_assoc|]. reflexivity.
Qed.

(** Whatever ends the Transfer, the bytes that reached the staging file
    are an initial part of the bytes the counter has counted, and those
    are an initial part of the body: the counter counts a chunk before the
    chunk is written, so after a failed write [Total] can be ahead of the
    file, never behind it; and after a failure the staging file holds an
    initial part of the body. *)
Theorem staging_is_prefix_of_body env (url dir : string) (w : World)
  (name : string) (body : Body) :
  getFileName env url = Ret name ->
  env_Create env (files w) (trace w) (staging_path dir name) = None ->
  env_Get env (files_of_Create (files w) (staging_path dir name))
          (trace w ++ [EvCreate (staging_path dir name) None]) url = inr body ->
  exists res w' evs counted,
    DownloadFile env url dir w = (Ret res, w') /\
    trace w' = trace w ++ evs /\
    written_data evs `prefix_of` counted /\
    counted `prefix_of` body_bytes body /\
    Total (counter w') = (len counted mod 2 ^ 64)%Z /\
    (len (written_data evs) <= len counted <= len (body_bytes body))%Z /\
    (res <> None ->
     files w' !! staging_path dir name = Some (written_data evs)).
Proof.
  intros Hname Hcreate Hget.
  destruct (DownloadFile_copy env url dir w name body Hname Hcreate Hget)
    as (n & cerr & w3 & res & w' & tail & Hcopy & Hrun & Hcnt & _ & _ & Htr & Htail).
  match type of Hcopy with
  | io_Copy_tee _ _ _ _ _ ?W = _ =>
      destruct (io_Copy_tee_progress env (staging_path dir name) body 0%Z W)
        as (n' & cerr' & w3' & wevs & counted & Hcopy' & Htr3 & Hwr & Hbody & Htot & _);
        [simpl; split; [lia | reflexivity] |]
  end.
  rewrite Hcopy in Hcopy'. inversion Hcopy'; subst n' cerr' w3'. clear Hcopy'.
  cbn [trace counter] in Htr3, Htot.
  destruct (DownloadFile_spec env url dir w name Hname)
    as (res1 & w1 & evs & Hrun1 & Htr1 & Hf & Hlog & Hhd & _).
  rewrite Hrun in Hrun1. inversion Hrun1; subst res1 w1. clear Hrun1.
  assert (Hevs : evs = [EvCreate (staging_path dir name) None; EvGet url None]
                       ++ wevs ++ tail).
  { apply (app_inv_head (trace w)). rewrite <- Htr1, Htr, Htr3.
    by rewrite <- !app_assoc. }
  assert (Hdata : written_data evs = written_data wevs).
  { rewrite Hevs, !written_data_app, Htail. simpl. by rewrite app_nil_r. }
  exists res, w', evs, counted. split; [done|]. split; [done|].
  rewrite Hdata. split; [done|]. split; [done|].
  split; [rewrite Hcnt, Htot; unfold Write_Total; simpl Total; by rewrite Z.add_0_l|].
  split.
  - destruct Hwr as [k1 ->]. destruct Hbody as [k2 ->].
    rewrite !len_app. pose proof (len_nonneg k1). pose proof (len_nonneg k2). lia.
  - intros Hres. destruct res as [e|]; [|done]. rewrite Hf, <- Hdata.
    destruct (Transfer_log_failed_staging _ _ _ _ _ (files w) Hlog) as [Hst _].
    apply Hst. by rewrite Hhd, Hcreate.
Qed.

Lemma staging_is_prefix_of_body_witness :
  exists w' evs counted,
    DownloadFile (Sample.env Sample.FailWrite []) "https://x.test/img/42.png"
                 "/tmp/out" Sample.world0
      = (Ret (Some (PathError "write" "" ENOSPC)), w') /\
    trace w' = trace Sample.world0 ++ evs /\
    written_data evs `prefix_of` counted /\
    Total (counter w') = (len counted mod 2 ^ 64)%Z /\
    written_data evs = [Sample.b 1] /\
    Total (counter w') = 3%Z.
Proof.
  destruct (staging_is_prefix_of_body (Sample.env Sample.FailWrite [])
              "https://x.test/img/42.png" "/tmp/out" Sample.world0 "42.png"
              Sample.page_body)
    as (res & w' & evs & counted & Hrun & Htr & Hwr & _ & Htot & _);
    [vm_compute; reflexivity ..|].
  exists w', evs, counted.
  assert (Hw : (Ret res, w') = DownloadFile (Sample.env Sample.FailWrite [])
                 "https://x.test/img/42.png" "/tmp/out" Sample.world0) by done.
  vm_compute in Hw. injection Hw as -> Hw'.
  split; [rewrite Hrun; reflexivity|]. split; [exact Htr|].
  split; [exact Hwr|]. split; [exact Htot|].
  assert (He : evs = trace w') by (rewrite Htr; reflexivity).
  rewrite He, Hw'. split; reflexivity.
Defined.

Lemma progress_of_no_bytes env body : forall t,
  body_bytes body = [] -> progress_of env t body = [].
Proof.
  induction body as [|[p [e|]] body IH]; intros t H; simpl in *.
  - done.
  - subst p. reflexivity.
  - apply app_eq_nil in H as [-> H]. simpl. by apply IH.
Qed.

Lemma progress_of_last env body : forall t,
  (0 <= t < uint64_mod)%Z ->
  body_bytes body <> [] ->
  exists pre,
    progress_of env t body =
    pre ++ [CR +:+ "Downloading... "
            +:+ humanize_Bytes env (Write_Total t (body_bytes body))
            +:+ " complete"].
Proof.
  induction body as [|[p er] body IH]; intros t Ht H; [done|].
  cbn [progress_of body_bytes] in *.
  destruct (0 <? len p)%Z eqn:Hp.
  - destruct er as [e|].
    + exists [CR +:+ strings_Repeat " " 50]. by rewrite app_nil_r.
    + destruct (body_bytes body) as [|x bb] eqn:Hbb.
      * rewrite progress_of_no_bytes by done.
        exists [CR +:+ strings_Repeat " " 50]. by rewrite !app_nil_r.
      * destruct (IH (Write_Total t p)) as [pre Hpre];
          [apply Write_Total_range | done |].
        rewrite Hpre, Write_Total_add.
        eexists (_ :: _ :: pre). reflexivity.
  - apply len_0_nil in Hp. subst p. destruct er as [e|]; [done|].
    simpl in H |- *. by apply IH.
Qed.

(** What a successful Transfer prints: for every read that delivered
    bytes the two progress lines, with the running total, then a newline.
    With a body of no bytes that is the newline alone, no total is shown;
    otherwise the last total shown is the size of the body in [uint64]. *)
Theorem progress_of_successful_Transfer env (url dir : string) (w w' : World) :
  DownloadFile env url dir w = (Ret None, w') ->
  exists name body,
    getFileName env url = Ret name /\
    env_Get env (files_of_Create (files w) (staging_path dir name))
            (trace w ++ [EvCreate (staging_path dir name) None]) url
      = inr body /\
    stdout w' = stdout w ++ progress_of env 0 body ++ [LF] /\
    (body_bytes body = [] -> stdout w' = stdout w ++ [LF]) /\
    (body_bytes body <> [] ->
     exists pre,
       stdout w' =
       pre ++ [CR +:+ "Downloading... "
               +:+ humanize_Bytes env (len (body_bytes body) mod 2 ^ 64)
               +:+ " complete"; LF]).
Proof.
  intros Hrun. destruct (getFileName env url) as [name|e|c] eqn:Hname;
    [|unfold DownloadFile in Hrun; rewrite Hname in Hrun; discriminate ..].
  destruct (DownloadFile_spec env url dir w name Hname)
    as (res & w1 & evs & Hrun1 & _ & _ & Hlog & Hhd & Hok).
  rewrite Hrun in Hrun1. inversion Hrun1; subst res w1. clear Hrun1.
  destruct (Hok eq_refl) as (body & Hget & _).
  assert (Hcreate : env_Create env (files w) (trace w) (staging_path dir name) = None).
  { inversion Hlog; subst. simpl in Hhd. by inversion Hhd. }
  destruct (DownloadFile_copy env url dir w name body Hname Hcreate Hget)
    as (n & cerr & w3 & res & w2 & tail & Hcopy & Hrun2 & _ & Hres & Hout & _).
  rewrite Hrun in Hrun2. inversion Hrun2; subst res w2. clear Hrun2.
  destruct cerr as [e|]; [by discriminate Hres|].
  match type of Hcopy with
  | io_Copy_tee _ _ _ _ _ ?W = _ =>
      destruct (io_Copy_tee_progress env (staging_path dir name) body 0%Z W)
        as (n' & cerr' & w3' & wevs & counted & Hcopy' & _ & _ & _ & _ & Hprog);
        [simpl; split; [lia | reflexivity] |]
  end.
  rewrite Hcopy in Hcopy'. inversion Hcopy'; subst n' cerr' w3'. clear Hcopy'.
  specialize (Hprog eq_refl). cbn [stdout counter Total] in Hprog.
  assert (Hall : stdout w' = stdout w ++ progress_of env 0 body ++ [LF]).
  { rewrite Hout, Hprog. by rewrite <- app_assoc. }
  exists name, body. split; [done|]. split; [done|]. split; [done|]. split.
  - intros Hnone. by rewrite Hall, progress_of_no_bytes.
  - intros Hsome.
    destruct (progress_of_last env body 0%Z) as [pre Hpre]; [done | done |].
    exists (stdout w ++ pre). rewrite Hall, Hpre.
    unfold Write_Total. rewrite Z.add_0_l. by rewrite <- !app_assoc.
Qed.

Lemma progress_of_successful_Transfer_witness :
  let w' := snd (DownloadFile (Sample.env Sample.NoFault [])
                   "https://x.test/img/42.png" "/tmp/out" Sample.world0) in
  stdout w' =
    [CR +:+ strings_Repeat " " 50; CR +:+ "Downloading... 3 B complete";
     CR +:+ strings_Repeat " " 50; CR +:+ "Downloading... 5 B complete"; LF].
Proof.
  intros w'.
  destruct (progress_of_successful_Transfer (Sample.env Sample.NoFault [])
              "https://x.test/img/42.png" "/tmp/out" Sample.world0 w')
    as (name & body & Hname & Hget & Hout & _).
  - vm_compute. reflexivity.
  - vm_compute in Hname. injection Hname as <-.
    vm_compute in Hget. injection Hget as <-.
    rewrite Hout. vm_compute. reflexivity.
Defined.

(** ** The files a Transfer leaves *)

Lemma replay_writes_map tmp wevs : forall (f : gmap string (list byte)) c,
  Forall (writes_to tmp) wevs ->
  f !! tmp = Some c ->
  replay f wevs = <[tmp := c ++ written_data wevs]> f.
Proof.
  induction wevs as [|e wevs IH]; intros f c H Hc.
  - simpl. rewrite app_nil_r. symmetry. by apply insert_id.
  - inversion H as [|? ? (d & r & ->) Hw]; subst. unfold replay. simpl.
    fold (replay (files_of_Write f tmp d) wevs).
    assert (Hfw : files_of_Write f tmp d = <[tmp := c ++ d]> f).
    { unfold files_of_Write. by rewrite Hc. }
    rewrite Hfw, (IH _ (c ++ d)); [|done|by rewrite lookup_insert_eq].
    by rewrite insert_insert_eq, app_assoc.
Qed.

Lemma replay_copy_map tmp url wevs (f : gmap string (list byte)) :
  Forall (writes_to tmp) wevs ->
  replay f ([EvCreate tmp None; EvGet url None] ++ wevs)
  = <[tmp := written_data wevs]> f.
Proof.
  intros Hw. rewrite replay_app. simpl.
  rewrite (replay_writes_map tmp wevs _ []); [|done|].
  - unfold files_of_Create. by rewrite insert_insert_eq.
  - unfold files_of_Create. by rewrite lookup_insert_eq.
Qed.

(** A Transfer changes its staging file and its final file and no other:
    after a nil return the files are those of before with the staging name
    removed and the final name holding the bytes of the body, whatever
    either name held; after an error return with the staging file created
    they are those of before with the staging name holding the bytes
    written; and when the staging file could not be created they are those
    of before. *)
Theorem files_after_Transfer env (url dir : string) (w : World) (name : string) :
  getFileName env url = Ret name ->
  exists res w' evs,
    DownloadFile env url dir w = (Ret res, w') /\
    trace w' = trace w ++ evs /\
    (res = None ->
     exists body,
       env_Get env (files_of_Create (files w) (staging_path dir name))
               (trace w ++ [EvCreate (staging_path dir name) None]) url
         = inr body /\
       files w' = <[final_path dir name := body_bytes body]>
                    (delete (staging_path dir name) (files w))) /\
    (res <> None ->
     env_Create env (files w) (trace w) (staging_path dir name) = None ->
     files w' = <[staging_path dir name := written_data evs]> (files w)) /\
    (env_Create env (files w) (trace w) (staging_path dir name) <> None ->
     files w' = files w).
Proof.
  intros Hname.
  destruct (DownloadFile_spec env url dir w name Hname)
    as (res & w' & evs & Hrun & Htr & Hf & Hlog & Hhd & Hok).
  set (tmp := staging_path dir name) in *. set (fin := final_path dir name) in *.
  exists res, w', evs. split; [done|]. split; [done|]. split; [|split].
  - intros ->. destruct (Hok eq_refl) as (body & Hget & Hdata & _).
    exists body. split; [done|]. rewrite Hf, <- Hdata.
    inversion Hlog as [| | | |wevs Hw _]; subst evs.
    rewrite app_assoc, replay_app, written_data_app, replay_copy_map by done.
    simpl. rewrite app_nil_r.
    unfold files_of_Rename. rewrite lookup_insert_eq.
    by rewrite delete_insert_eq.
  - intros Hres Hcreate. rewrite Hf. rewrite Hcreate in Hhd.
    inversion Hlog as [e He|e He|wevs e Hw He|wevs e Hw _ He|]; subst evs;
      try done.
    + rewrite app_assoc, replay_app, written_data_app, replay_copy_map by done.
      simpl. by rewrite app_nil_r.
    + rewrite app_assoc, replay_app, written_data_app, replay_copy_map by done.
      simpl. by rewrite app_nil_r.
  - intros Hcreate. rewrite Hf.
    destruct (env_Create env (files w) (trace w) tmp) as [e'|]; [|done].
    inversion Hlog; subst; simpl in Hhd; by inversion Hhd.
Qed.

Lemma files_after_Transfer_witness :
  let w' := snd (DownloadFile (Sample.env Sample.NoFault [])
                   "https://x.test/img/42.png" "/tmp/out" Sample.world1) in
  files w' = <["/tmp/out/42.png" := body_bytes Sample.page_body]> ∅.
Proof.
  intros w'.
  destruct (files_after_Transfer (Sample.env Sample.NoFault [])
              "https://x.test/img/42.png" "/tmp/out" Sample.world1 "42.png")
    as (res & w1 & evs & Hrun & _ & Hok & _).
  - vm_compute. reflexivity.
  - assert (Hw : w' = w1) by (subst w'; by rewrite Hrun).
    assert (Hres : res = None).
    { vm_compute in Hrun. by injection Hrun as <- _. }
    destruct (Hok Hres) as (body & Hget & Hfiles).
    vm_compute in Hget. injection Hget as <-.
    rewrite Hw, Hfiles. vm_compute. reflexivity.
Defined.

(** ** The handles of a Transfer *)

Lemma writes_not_close tmp wevs :
  Forall (writes_to tmp) wevs ->
  List.filter is_close wevs = [] /\ List.filter is_body_close wevs = [].
Proof.
  induction 1 as [|e wevs (d & r & ->) _ IH]; [done|]. simpl. exact IH.
Qed.

(** Every handle [DownloadFile] opens it closes, once, and in the reverse
    order: when the staging file was created, the last call of
    [DownloadFile] is its [Close] and there is no other; when the request
    succeeded, the [Close] of the body comes just before it and there is no
    other; and nothing is closed that was not opened. *)
Theorem handles_are_closed env (url dir : string) (w : World) (name : string) :
  getFileName env url = Ret name ->
  exists res w' evs,
    DownloadFile env url dir w = (Ret res, w') /\
    trace w' = trace w ++ evs /\
    (env_Create env (files w) (trace w) (staging_path dir name) = None ->
     exists pre, evs = pre ++ [EvClose (staging_path dir name)] /\
                 List.filter is_close pre = []) /\
    (env_Create env (files w) (trace w) (staging_path dir name) <> None ->
     List.filter is_close evs = [] /\ List.filter is_body_close evs = []) /\
    (EvGet url None ∈ evs ->
     exists pre,
       evs = pre ++ [EvBodyClose url; EvClose (staging_path dir name)] /\
       List.filter is_body_close pre = []) /\
    (EvGet url None ∉ evs -> List.filter is_body_close evs = []).
Proof.
  intros Hname.
  destruct (DownloadFile_spec env url dir w name Hname)
    as (res & w' & evs & Hrun & Htr & _ & Hlog & Hhd & _).
  set (tmp := staging_path dir name) in *. set (fin := final_path dir name) in *.
  exists res, w', evs. split; [done|]. split; [done|].
  destruct (env_Create env (files w) (trace w) tmp) as [ce|] eqn:Hcreate.
  - (* the staging file was not created *)
    inversion Hlog; subst; simpl in Hhd; try (by inversion Hhd).
    split; [done|]. split; [done|]. split; [|done].
    intros Hel. apply elem_of_cons in Hel as [Hel|Hel]; [discriminate|].
    by apply elem_of_nil in Hel.
  - split; [|split; [done|]].
    + intros _.
      inversion Hlog as [| |wevs ? Hw|wevs ? Hw _|wevs Hw _]; subst;
        try (simpl in Hhd; by inversion Hhd).
      * by exists [EvCreate tmp None; EvGet url (Some e)].
      * exists ([EvCreate tmp None; EvGet url None] ++ wevs ++ [EvBodyClose url]).
        split; [by rewrite <- !app_assoc|].
        simpl. rewrite List.filter_app.
        destruct (writes_not_close tmp wevs Hw) as [-> _]. done.
      * exists ([EvCreate tmp None; EvGet url None] ++ wevs
                ++ [EvRename tmp fin (Some e); EvBodyClose url]).
        split; [by rewrite <- !app_assoc|].
        simpl. rewrite List.filter_app.
        destruct (writes_not_close tmp wevs Hw) as [-> _]. done.
      * exists ([EvCreate tmp None; EvGet url None] ++ wevs
                ++ [EvRename tmp fin None; EvBodyClose url]).
        split; [by rewrite <- !app_assoc|].
        simpl. rewrite List.filter_app.
        destruct (writes_not_close tmp wevs Hw) as [-> _]. done.
    + inversion Hlog as [| |wevs ? Hw|wevs ? Hw _|wevs Hw _]; subst;
        try (simpl in Hhd; by inversion Hhd).
      * split; [|done]. intros Hel.
        repeat (apply elem_of_cons in Hel as [Hel|Hel]; [discriminate|]).
        by apply elem_of_nil in Hel.
      * split.
        -- intros _. exists ([EvCreate tmp None; EvGet url None] ++ wevs).
           split; [by rewrite <- !app_assoc|].
           simpl. by destruct (writes_not_close tmp wevs Hw) as [_ ->].
        -- intros Hnot. exfalso. apply Hnot. simpl. set_solver.
      * split.
        -- intros _. exists ([EvCreate tmp None; EvGet url None] ++ wevs
                             ++ [EvRename tmp fin (Some e)]).
           split; [by rewrite <- !app_assoc|].
           simpl. rewrite List.filter_app.
           by destruct (writes_not_close tmp wevs Hw) as [_ ->].
        -- intros Hnot. exfalso. apply Hnot. simpl. set_solver.
      * split.
        -- intros _. exists ([EvCreate tmp None; EvGet url None] ++ wevs
                             ++ [EvRename tmp fin None]).
           split; [by rewrite <- !app_assoc|].
           simpl. rewrite List.filter_app.
           by destruct (writes_not_close tmp wevs Hw) as [_ ->].
        -- intros Hnot. exfalso. apply Hnot. simpl. set_solver.
Qed.

Lemma handles_are_closed_witness :
  exists res w' evs pre,
    DownloadFile (Sample.env Sample.FailRead []) "https://x.test/img/42.png"
                 "/tmp/out" Sample.world0 = (Ret res, w') /\
    trace w' = trace Sample.world0 ++ evs /\
    evs = pre ++ [EvClose "/tmp/out/42.png.tmp"] /\
    List.filter is_close pre = [].
Proof.
  destruct (handles_are_closed (Sample.env Sample.FailRead [])
              "https://x.test/img/42.png" "/tmp/out" Sample.world0 "42.png")
    as (res & w' & evs & Hrun & Htr & Hclose & _).
  - vm_compute. reflexivity.
  - destruct Hclose as (pre & Hevs & Hpre); [vm_compute; reflexivity|].
    by exists res, w', evs, pre.
Defined.

(** ** [main] over the images of the page *)

Lemma for_each_app {A} (f : A -> M unit) l1 l2 w :
  for_each f (l1 ++ l2) w =
  match for_each f l1 w with
  | (Ret _, w1) => for_each f l2 w1
  | (Panic e, w1) => (Panic e, w1)
  | (Exit c, w1) => (Exit c, w1)
  end.
Proof.
  revert w. induction l1 as [|x l1 IH]; intros w; [reflexivity|].
  simpl. unfold bind. destruct (f x w) as [[[]|e|c] w1]; [apply IH|done|done].
Qed.

(** [main] stops at the first image whose callback panics, on a locator
    [url.Parse] rejects or on a Transfer that returns an error: it ends in
    that panic, in the world the callback left, and the images after it
    are not looked at. *)
Theorem main_stops_at_first_failure env (prog page dir : string) (w : World)
  (before : list string) (src : string) (rest : list string)
  (w1 w2 : World) (e : error) :
  env_Visit env (files (world_before_Visit env dir w))
            (trace (world_before_Visit env dir w)) page
    = before ++ src :: rest ->
  for_each (on_img env dir) before
           (world_at_Visit page (world_before_Visit env dir w)) = (Ret tt, w1) ->
  on_img env dir src w1 = (Panic e, w2) ->
  main env [prog; page; dir] w = (Panic e, w2).
Proof.
  intros Hvisit Hbefore Hsrc. rewrite main_run. cbv zeta.
  rewrite Hvisit, for_each_app, Hbefore.
  by erewrite for_each_first_panics.
Qed.

Lemma main_stops_at_first_failure_witness :
  let r := main (Sample.env Sample.NoFault
                   ["https://x.test/img/42.png"; ":"; "https://x.test/img/43.png"])
                ["download"; "http://x.test/"; "/tmp/out"] Sample.world0 in
  fst r = Panic (UrlError "parse" ":" "missing protocol scheme") /\
  files (snd r) !! "/tmp/out/42.png" = Some (body_bytes Sample.page_body) /\
  files (snd r) !! "/tmp/out/43.png" = None.
Proof.
  intros r. subst r.
  set (E := Sample.env Sample.NoFault
              ["https://x.test/img/42.png"; ":"; "https://x.test/img/43.png"]).
  set (w1 := snd (for_each (on_img E "/tmp/out") ["https://x.test/img/42.png"]
                    (world_at_Visit "http://x.test/"
                       (world_before_Visit E "/tmp/out" Sample.world0)))).
  set (w2 := snd (on_img E "/tmp/out" ":" w1)).
  rewrite (main_stops_at_first_failure E "download" "http://x.test/" "/tmp/out"
             Sample.world0 ["https://x.test/img/42.png"] ":"
             ["https://x.test/img/43.png"] w1 w2
             (UrlError "parse" ":" "missing protocol scheme")).
  - vm_compute. repeat split.
  - reflexivity.
  - vm_compute. reflexivity.
  - vm_compute. reflexivity.
Defined.

Lemma writes_not_commit tmp wevs :
  Forall (writes_to tmp) wevs ->
  List.filter is_commit wevs = [] /\ List.filter is_mkdir wevs = [].
Proof.
  induction 1 as [|ev wevs (d & r & ->) _ IH]; [done|]. simpl. exact IH.
Qed.

Lemma Transfer_log_commits url tmp fin evs res :
  Transfer_log url tmp fin evs res ->
  List.filter is_mkdir evs = [] /\
  length (List.filter is_commit evs) = match res with None => 1 | Some _ => 0 end.
Proof.
  intros Hlog.
  inversion Hlog as [| |wevs ? Hw|wevs ? Hw _|wevs Hw _]; subst; simpl;
    try done;
    rewrite !List.filter_app;
    destruct (writes_not_commit tmp wevs Hw) as [-> ->]; done.
Qed.

(** The calls of the callback: none is [os.MkdirAll]; one of them is a
    successful rename when the callback returns, none when it panics. *)
Lemma on_img_events env dir src w :
  exists evs,
    trace (snd (on_img env dir src w)) = trace w ++ evs /\
    List.filter is_mkdir evs = [] /\
    length (List.filter is_commit evs) =
      match fst (on_img env dir src w) with Ret _ => 1 | _ => 0 end.
Proof.
  rewrite on_img_run.
  destruct (getFileName env src) as [name|e|c] eqn:Hname.
  - destruct (DownloadFile_spec env src dir (world_in_callback src w) name Hname)
      as (res & w' & evs & Hrun & Htr & _ & Hlog & _).
    rewrite Hrun. exists evs.
    destruct (Transfer_log_commits _ _ _ _ _ Hlog) as [Hmk Hcm].
    by destruct res.
  - exists []. unfold DownloadFile. rewrite Hname. simpl. by rewrite app_nil_r.
  - exists []. unfold DownloadFile. rewrite Hname. simpl. by rewrite app_nil_r.
Qed.

Lemma for_each_on_img_events env dir imgs : forall w,
  exists evs,
    trace (snd (for_each (on_img env dir) imgs w)) = trace w ++ evs /\
    List.filter is_mkdir evs = [] /\
    (forall w', for_each (on_img env dir) imgs w = (Ret tt, w') ->
                length (List.filter is_commit evs) = length imgs).
Proof.
  induction imgs as [|src imgs IH]; intros w.
  - exists []. split; [simpl; by rewrite app_nil_r|]. done.
  - destruct (on_img_events env dir src w) as (evs1 & Htr1 & Hmk1 & Hcm1).
    cbn [for_each]. unfold bind.
    destruct (on_img env dir src w) as [[[]|e|c] w1] eqn:Hrun;
      cbn [fst snd] in Htr1, Hcm1.
    + destruct (IH w1) as (evs2 & Htr2 & Hmk2 & Hcm2).
      exists (evs1 ++ evs2). split; [by rewrite Htr2, Htr1, app_assoc|].
      split; [by rewrite List.filter_app, Hmk1, Hmk2|].
      intros w' Hw'. rewrite List.filter_app, length_app, Hcm1, (Hcm2 w' Hw').
      reflexivity.
    + exists evs1. split; [done|]. split; [done|]. discriminate.
    + exists evs1. split; [done|]. split; [done|]. discriminate.
Qed.

(** When [main] returns, every image of the page was committed: the calls
    made after the visit hold one successful rename for each image; and
    the last thing printed is [Grabbing completed!]. *)
Theorem main_returns_after_all_commits env (prog page dir : string)
  (w w' : World) :
  main env [prog; page; dir] w = (Ret tt, w') ->
  exists evs,
    trace w' = trace (world_at_Visit page (world_before_Visit env dir w)) ++ evs /\
    length (List.filter is_commit evs) =
      length (env_Visit env (files (world_before_Visit env dir w))
                        (trace (world_before_Visit env dir w)) page) /\
    last (stdout w') = Some (String.concat " " ["Grabbing completed!"] +:+ LF).
Proof.
  rewrite main_run. cbv zeta.
  set (w3 := world_before_Visit env dir w).
  set (imgs := env_Visit env (files w3) (trace w3) page).
  destruct (for_each_on_img_events env dir imgs (world_at_Visit page w3))
    as (evs & Htr & _ & Hcm).
  destruct (for_each (on_img env dir) imgs (world_at_Visit page w3))
    as [[[]|e|c] w5] eqn:Hrun; [|discriminate ..].
  intros [= <-]. exists evs. cbn [trace stdout snd] in *.
  split; [done|]. split; [by apply (Hcm w5)|]. apply last_snoc.
Qed.

Lemma main_returns_after_all_commits_witness :
  let r := main (Sample.env Sample.NoFault
                   ["https://x.test/img/42.png"; "https://x.test/img/43.png"])
                ["download"; "http://x.test/"; "/tmp/out"] Sample.world0 in
  fst r = Ret tt /\
  last (stdout (snd r)) = Some (String.concat " " ["Grabbing completed!"] +:+ LF) /\
  length (List.filter is_commit (trace (snd r))) = 2%nat.
Proof.
  intros r.
  destruct (main_returns_after_all_commits
              (Sample.env Sample.NoFault
                 ["https://x.test/img/42.png"; "https://x.test/img/43.png"])
              "download" "http://x.test/" "/tmp/out" Sample.world0 (snd r))
    as (evs & Htr & Hcm & Hlast).
  - vm_compute. reflexivity.
  - split; [vm_compute; reflexivity|]. split; [exact Hlast|].
    rewrite Htr, List.filter_app, length_app, Hcm. vm_compute. reflexivity.
Defined.

(** The first call of [main] is [os.Stat] on the directory, and
    [os.MkdirAll] is called, once and with mode 0700, exactly when the
    error of [os.Stat] is a does-not-exist error: not when the directory
    exists, and not when [os.Stat] fails for another reason. *)
Theorem MkdirAll_only_when_missing env (prog page dir : string) (w : World) :
  let st := env_Stat env (files w) (trace w) dir in
  exists evs,
    trace (snd (main env [prog; page; dir] w))
      = trace w ++ EvStat dir st :: evs /\
    List.filter is_mkdir evs =
      if os_IsNotExist st
      then [EvMkdirAll dir 448
              (env_MkdirAll env (files w) (trace w ++ [EvStat dir st]) dir 448)]
      else [].
Proof.
  intros st. rewrite main_run. cbv zeta.
  set (w3 := world_before_Visit env dir w).
  set (imgs := env_Visit env (files w3) (trace w3) page).
  destruct (for_each_on_img_events env dir imgs (world_at_Visit page w3))
    as (evs & Htr & Hmk & _).
  assert (Htr3 : exists pre,
             trace (world_at_Visit page w3) = trace w ++ EvStat dir st :: pre /\
             List.filter is_mkdir pre =
               if os_IsNotExist st
               then [EvMkdirAll dir 448
                       (env_MkdirAll env (files w) (trace w ++ [EvStat dir st])
                                     dir 448)]
               else []).
  { subst w3. unfold world_at_Visit, world_before_Visit. cbn [trace]. fold st.
    destruct (os_IsNotExist st).
    - eexists [_; _]. split; [by rewrite <- !app_assoc|]. reflexivity.
    - eexists [_]. split; [by rewrite <- !app_assoc|]. reflexivity. }
  destruct Htr3 as (pre & Hpre & Hfil). exists (pre ++ evs).
  split.
  - destruct (for_each (on_img env dir) imgs (world_at_Visit page w3))
      as [[[]|e|c] w5]; cbn [snd trace] in *;
      by rewrite Htr, Hpre, <- app_assoc.
  - by rewrite List.filter_app, Hmk, Hfil, app_nil_r.
Qed.

(** ** Two Transfers into one directory *)

(** The staging name of one Transfer can be the final name of another:
    a file committed under a name that ends in [.tmp] is the staging file
    of a later Transfer of the name without the [.tmp].  As soon as the
    later Transfer has created its staging file the earlier content is
    lost: after the later Transfer the name holds the bytes it wrote before
    failing, and does not exist when it succeeded. *)
Theorem tmp_named_file_is_overwritten env (url1 url2 dir : string)
  (w w1 w2 : World) (res : option error) (name : string) :
  getFileName env url1 = Ret (name +:+ ".tmp") ->
  getFileName env url2 = Ret name ->
  DownloadFile env url1 dir w = (Ret None, w1) ->
  env_Create env (files w1) (trace w1) (staging_path dir name) = None ->
  DownloadFile env url2 dir w1 = (Ret res, w2) ->
  exists body1 evs2,
    env_Get env (files_of_Create (files w) (staging_path dir (name +:+ ".tmp")))
            (trace w ++ [EvCreate (staging_path dir (name +:+ ".tmp")) None]) url1
      = inr body1 /\
    files w1 !! final_path dir (name +:+ ".tmp") = Some (body_bytes body1) /\
    trace w2 = trace w1 ++ evs2 /\
    files w2 !! final_path dir (name +:+ ".tmp") =
      match res with
      | None => None
      | Some _ => Some (written_data evs2)
      end.
Proof.
  intros Hname1 Hname2 Hrun1 Hcreate Hrun2.
  assert (Hsame : final_path dir (name +:+ ".tmp") = staging_path dir name)
    by reflexivity.
  destruct (DownloadFile_spec env url1 dir w _ Hname1)
    as (res1 & w1' & evs1 & Hr1 & _ & Hf1 & Hlog1 & _ & Hok1).
  rewrite Hrun1 in Hr1. inversion Hr1; subst res1 w1'. clear Hr1.
  destruct (Hok1 eq_refl) as (body1 & Hget1 & Hdata1 & _).
  destruct (DownloadFile_spec env url2 dir w1 _ Hname2)
    as (res2 & w2' & evs2 & Hr2 & Htr2 & Hf2 & Hlog2 & Hhd2 & _).
  rewrite Hrun2 in Hr2. inversion Hr2; subst res2 w2'. clear Hr2.
  exists body1, evs2. split; [done|]. split; [|split; [done|]].
  - rewrite Hf1, <- Hdata1.
    by apply (Transfer_log_committed_staging url1 _ _ _ _
                (staging_ne_final dir (name +:+ ".tmp")) Hlog1).
  - rewrite Hsame, Hf2. destruct res as [e|].
    + destruct (Transfer_log_failed_staging _ _ _ _ _ (files w1) Hlog2) as [Hst _].
      apply Hst. by rewrite Hhd2, Hcreate.
    + by apply (Transfer_log_committed_staging url2 _ _ _ _
                  (staging_ne_final dir name) Hlog2).
Qed.

Lemma tmp_named_file_is_overwritten_witness :
  let E := Sample.env Sample.NoFault [] in
  let w1 := snd (DownloadFile E "https://x.test/img/42.png.tmp" "/tmp/out"
                   Sample.world0) in
  let w2 := snd (DownloadFile E "https://x.test/img/42.png" "/tmp/out" w1) in
  files w1 !! "/tmp/out/42.png.tmp" = Some (body_bytes Sample.page_body) /\
  files w2 !! "/tmp/out/42.png.tmp" = None.
Proof.
  intros E w1 w2.
  destruct (tmp_named_file_is_overwritten E "https://x.test/img/42.png.tmp"
              "https://x.test/img/42.png" "/tmp/out" Sample.world0 w1 w2 None
              "42.png")
    as (body1 & evs2 & Hget & Hf1 & _ & Hf2); [vm_compute; reflexivity ..|].
  vm_compute in Hget. injection Hget as <-.
  split; [exact Hf1 | exact Hf2].
Defined.

(** ** The second revision of [main] *)

Lemma prefix_true_app (sub s : string) :
  String.prefix sub s = true -> exists rest, s = sub +:+ rest.
Proof.
  revert s. induction sub as [|c sub IH]; intros s H.
  - by exists s.
  - destruct s as [|c' s]; [discriminate|]. simpl in H.
    destruct (ascii_dec c c') as [->|]; [|discriminate].
    destruct (IH s H) as [rest ->]. by exists rest.
Qed.

Lemma strings_Contains_eq s substr :
  Revision2.strings_Contains s substr =
  String.prefix substr s ||
  match s with
  | EmptyString => false
  | String _ s' => Revision2.strings_Contains s' substr
  end.
Proof. by destruct s. Qed.

(** [strings.Contains(s, substr)] holds only of strings that have
    [substr] inside. *)
Lemma strings_Contains_inside s substr :
  Revision2.strings_Contains s substr = true ->
  exists before after, s = before +:+ substr +:+ after.
Proof.
  induction s as [|c s IH]; rewrite strings_Contains_eq; intros H;
    apply orb_true_iff in H as [H|H].
  - destruct (prefix_true_app _ _ H) as [rest ->]. by exists "", rest.
  - discriminate.
  - destruct (prefix_true_app _ _ H) as [rest ->]. by exists "", rest.
  - destruct (IH H) as (before & after & ->).
    by exists (String c before), after.
Qed.

Lemma foldl_on_href hrefs : forall links,
  foldl Revision2.on_href links hrefs =
  links ++ List.filter (fun l => Revision2.strings_Contains l "/photo/") hrefs.
Proof.
  induction hrefs as [|h hrefs IH]; intros links; simpl.
  - by rewrite app_nil_r.
  - rewrite IH. unfold Revision2.on_href.
    destruct (Revision2.strings_Contains h "/photo/"); [|done].
    by rewrite <- app_assoc.
Qed.

Lemma Revision2_main_run env env_Links chromedp_Run prog page dir w :
  Revision2.main env env_Links chromedp_Run [prog; page; dir] w =
  match url_Parse env page with
  | inl e => (Panic e, world_printing [line "Download Started"] w)
  | inr u =>
      let host := Scheme u +:+ "://" +:+ Host u in
      let w3 := world_before_Visit env dir w in
      let w4 := world_at_Visit page w3 in
      match List.filter (fun l => Revision2.strings_Contains l "/photo/")
                        (env_Links (files w3) (trace w3) page) with
      | [] => (Ret tt, world_printing [line "Grabbing completed!"] w4)
      | link :: _ =>
          match chromedp_Run (files w4) (trace w4) (host +:+ link) with
          | inl e => (Panic e, world_printing [line (host +:+ link)] w4)
          | inr example =>
              (Ret tt,
               world_printing [line (host +:+ link); line ""; line example;
                               line "Grabbing completed!"] w4)
          end
      end
  end.
Proof.
  unfold Revision2.main, Revision2.getHostName.
  change (negb (len [prog; page; dir] =? 3)%Z) with false.
  change (default "" ([prog; page; dir] !! 1%nat)) with page.
  change (default "" ([prog; page; dir] !! 2%nat)) with dir.
  unfold fmt_Println, os_Stat, os_MkdirAll, Revision2.colly_Visit. unfold_monad.
  destruct (url_Parse env page) as [e|u]; [reflexivity|]. cbv zeta.
  unfold world_before_Visit, world_at_Visit, world_printing, line.
  cbn [files counter stdout trace].
  destruct (os_IsNotExist (env_Stat env (files w) (trace w) dir));
    unfold_monad; rewrite foldl_on_href; simpl app;
    match goal with
    | |- context [List.filter ?f ?l] => destruct (List.filter f l) as [|link ?]
    end; unfold Revision2.open_first, fmt_Println; unfold_monad;
    try (rewrite <- ?app_assoc; reflexivity);
    match goal with
    | |- context [chromedp_Run ?a ?b ?c] => destruct (chromedp_Run a b c)
    end; unfold_monad; rewrite <- ?app_assoc; reflexivity.
Qed.



(** With a page locator [url.Parse] accepts, the second revision opens in
    the browser the first link of the page that has [/photo/] in it, under
    the scheme and host of the page, and no other: the links after it
    change nothing.  It panics with the browser's error, or prints the
    locator, an empty line and the value read, and completes; with no such
    link on the page it completes without opening anything. *)
Theorem Revision2_main_opens_first_photo_link env env_Links chromedp_Run
  (prog page dir : string) (w : World) (u : URL) :
  url_Parse env page = inr u ->
  let host := Scheme u +:+ "://" +:+ Host u in
  let w3 := world_before_Visit env dir w in
  let w4 := world_at_Visit page w3 in
  match List.filter (fun l => Revision2.strings_Contains l "/photo/")
                    (env_Links (files w3) (trace w3) page) with
  | [] =>
      Revision2.main env env_Links chromedp_Run [prog; page; dir] w
      = (Ret tt, world_printing [line "Grabbing completed!"] w4)
  | link :: _ =>
      (exists before after, link = before +:+ "/photo/" +:+ after) /\
      Revision2.main env env_Links chromedp_Run [prog; page; dir] w =
      match chromedp_Run (files w4) (trace w4) (host +:+ link) with
      | inl e => (Panic e, world_printing [line (host +:+ link)] w4)
      | inr example =>
          (Ret tt,
           world_printing [line (host +:+ link); line ""; line example;
                           line "Grabbing completed!"] w4)
      end
  end.
Proof.
  intros Hparse host w3 w4. rewrite Revision2_main_run, Hparse. cbv zeta.
  fold w3. fold w4. fold host.
  destruct (List.filter _ _) as [|link others] eqn:Hfilter; [done|].
  split; [|done]. apply strings_Contains_inside.
  assert (Hin : In link (List.filter
                           (fun l => Revision2.strings_Contains l "/photo/")
                           (env_Links (files w3) (trace w3) page)))
    by (rewrite Hfilter; by left).
  by apply List.filter_In in Hin as [_ Hin].
Qed.

Lemma Revision2_main_opens_first_photo_link_witness :
  let r := Revision2.main (Sample.env Sample.NoFault [])
             (fun _ _ _ => ["/about"; "/photo/62081820"; "/photo/7"])
             (fun _ _ target => inr ("value of " +:+ target))
             ["download"; "https://sfwalbum.com/album"; "/tmp/out"]
             Sample.world0 in
  fst r = Ret tt /\
  stdout (snd r) =
    [line "Download Started"; line "https://sfwalbum.com/photo/62081820";
     line ""; line "value of https://sfwalbum.com/photo/62081820";
     line "Grabbing completed!"].
Proof.
  intros r.
  pose proof (Revision2_main_opens_first_photo_link
                (Sample.env Sample.NoFault [])
                (fun _ _ _ => ["/about"; "/photo/62081820"; "/photo/7"])
                (fun _ _ target => inr ("value of " +:+ target))
                "download" "https://sfwalbum.com/album" "/tmp/out" Sample.world0
                (mkURL "https" "" "sfwalbum.com" "/album" "" "")) as H.
  cbv zeta in H. destruct H as [_ Hmain]; [vm_compute; reflexivity|].
  subst r. rewrite Hmain. vm_compute. split; reflexivity.
Defined.

(** The second revision parses the page locator before anything else:
    on a locator [url.Parse] rejects, [main] panics with the parse error
    having printed its first line and called nothing, not even [os.Stat]. *)
Theorem Revision2_main_bad_page_locator env env_Links chromedp_Run
  (prog page dir : string) (w : World) (e : error) :
  url_Parse env page = inl e ->
  Revision2.getHostName env page = Panic e /\
  Revision2.main env env_Links chromedp_Run [prog; page; dir] w
  = (Panic e, world_printing [line "Download Started"] w).
Proof.
  intros Hparse. split.
  - unfold Revision2.getHostName. by rewrite Hparse.
  - by rewrite Revision2_main_run, Hparse.
Qed.

Lemma Revision2_main_bad_page_locator_witness :
  Revision2.main (Sample.env Sample.NoFault [])
    (fun _ _ _ => ["/photo/1"]) (fun _ _ _ => inr "")
    ["download"; ":"; "/tmp/out"] Sample.world0
  = (Panic (UrlError "parse" ":" "missing protocol scheme"),
     world_printing [line "Download Started"] Sample.world0).
Proof.
  apply (Revision2_main_bad_page_locator (Sample.env Sample.NoFault [])
           (fun _ _ _ => ["/photo/1"]) (fun _ _ _ => inr "")
           "download" ":" "/tmp/out" Sample.world0
           (UrlError "parse" ":" "missing protocol scheme")).
  vm_compute. reflexivity.
Defined.
